(** * Grading pipeline of the auto-grader backend

    A shallow embedding of [grading_engine.py] (the multi-run grader
    [grade_submission]) and of the grading endpoints of [main.py]
    ([grade_all_submissions_background], [start_grading]).

    Conventions.
    - Python exceptions are result values: [Raise e] / [Return a].
    - The chat-completion service is an explicit argument (the [oracle]);
      every theorem quantifies over all of its possible behaviours.
    - Python numbers are [PyInt] (unbounded integers) or [PyFloat]; a float
      is represented by the rational it denotes, so [/], [round(_, 2)] and
      the [:.2f] format are exact-arithmetic versions of the binary64 ones.
    - [print] calls only write to the process log and are left out. *)

From Stdlib Require Import ZArith QArith Qround Qabs Lqa String Ascii List Bool Lia.
From Stdlib Require Import DecimalString Permutation.
Import ListNotations.

Set Warnings "-register-all".

Local Open Scope string_scope.
Local Open Scope Z_scope.

(** ** Python values and exceptions *)

Module Py.

(** Values that [json.loads] can produce. A dict is kept as the list of its
    items; [get] returns the first item with the key. *)
Inductive value : Type :=
| VNone
| VBool (b : bool)
| VInt (z : Z)
| VFloat (q : Q)
| VStr (s : string)
| VList (l : list value)
| VDict (items : list (string * value)).

Inductive exc_class : Type :=
| Exception
| TypeError
| ValueError
| AttributeError
| IndexError
| ZeroDivisionError
| HTTPException (status_code : Z).

(** An exception object: its class and its message ([str(e)]; for an
    [HTTPException], its [detail]). *)
Record exc : Type := mkExc { exc_type : exc_class; exc_str : string }.

Inductive outcome (A : Type) : Type :=
| Raise (e : exc)
| Return (a : A).
Arguments Raise {A} e.
Arguments Return {A} a.

Definition bind {A B : Type} (m : outcome A) (k : A -> outcome B) : outcome B :=
  match m with
  | Raise e => Raise e
  | Return a => k a
  end.

(** The double-quote and newline characters, for message texts. *)
Definition dq : string := String (ascii_of_nat 34) EmptyString.
Definition nl : string := String (ascii_of_nat 10) EmptyString.

(** [type(v).__name__] *)
Definition type_name (v : value) : string :=
  match v with
  | VNone => "NoneType"
  | VBool _ => "bool"
  | VInt _ => "int"
  | VFloat _ => "float"
  | VStr _ => "str"
  | VList _ => "list"
  | VDict _ => "dict"
  end.

(** Numbers as the arithmetic operators see them ([bool] is a subclass of
    [int]). *)
Inductive num : Type :=
| PyInt (z : Z)
| PyFloat (q : Q).

Definition as_num (v : value) : option num :=
  match v with
  | VBool b => Some (PyInt (if b then 1 else 0))
  | VInt z => Some (PyInt z)
  | VFloat q => Some (PyFloat q)
  | _ => None
  end.

Definition num_type_name (n : num) : string :=
  match n with PyInt _ => "int" | PyFloat _ => "float" end.

Definition to_Q (n : num) : Q :=
  match n with PyInt z => inject_Z z | PyFloat q => q end.

Definition add (a b : num) : num :=
  match a, b with
  | PyInt x, PyInt y => PyInt (x + y)
  | _, _ => PyFloat (Qred (to_Q a + to_Q b))
  end.

(** [sum(values)]: starts from the int [0] and adds from the left. *)
Fixpoint sum_from (acc : num) (values : list value) : outcome num :=
  match values with
  | [] => Return acc
  | v :: rest =>
      match as_num v with
      | Some n => sum_from (add acc n) rest
      | None =>
          Raise (mkExc TypeError
                   ("unsupported operand type(s) for +: '" ++ num_type_name acc
                      ++ "' and '" ++ type_name v ++ "'"))
      end
  end.

Definition sum (values : list value) : outcome num := sum_from (PyInt 0) values.

(** [a / n] for an [int] divisor: true division, always a float. *)
Definition truediv (a : num) (n : Z) : outcome Q :=
  if n =? 0 then
    Raise (mkExc ZeroDivisionError
             (match a with
              | PyInt _ => "division by zero"
              | PyFloat _ => "float division by zero"
              end))
  else Return (Qred (to_Q a / inject_Z n)).

(** Nearest integer, ties to the even one. *)
Definition round_half_even (q : Q) : Z :=
  let f := Qfloor q in
  match Qcompare (q - inject_Z f) (1 # 2) with
  | Lt => f
  | Gt => f + 1
  | Eq => if Z.even f then f else f + 1
  end.

(** [round(x, 2)] on a float. *)
Definition round2 (x : Q) : Q := Qred (inject_Z (round_half_even (x * 100)) / 100).

Definition digits (z : Z) : string := NilZero.string_of_uint (N.to_uint (Z.to_N z)).

(** [format(x, '.2f')] *)
Definition format_2f (x : Q) : string :=
  let k := round_half_even (Qabs x * 100) in
  let frac := k mod 100 in
  (if Qlt_le_dec x 0 then "-" else "")
    ++ digits (k / 100) ++ "."
    ++ (if frac <? 10 then "0" else "") ++ digits frac.

(** [f"{v:.2f}"] on an arbitrary value. *)
Definition format_value_2f (v : value) : outcome string :=
  match v with
  | VStr _ =>
      Raise (mkExc ValueError "Unknown format code 'f' for object of type 'str'")
  | _ =>
      match as_num v with
      | Some n => Return (format_2f (to_Q n))
      | None =>
          Raise (mkExc TypeError
                   ("unsupported format string passed to " ++ type_name v
                      ++ ".__format__"))
      end
  end.

Fixpoint format_all_2f (values : list value) : outcome (list string) :=
  match values with
  | [] => Return []
  | v :: rest =>
      bind (format_value_2f v) (fun s =>
      bind (format_all_2f rest) (fun ss => Return (s :: ss)))
  end.

(** [prefix + v] where [prefix] is a [str]. *)
Definition str_concat (prefix : string) (v : value) : outcome string :=
  match v with
  | VStr s => Return (prefix ++ s)
  | _ =>
      Raise (mkExc TypeError
               ("can only concatenate str (not " ++ dq ++ type_name v ++ dq
                  ++ ") to str"))
  end.

Fixpoint lookup (key : string) (items : list (string * value)) : option value :=
  match items with
  | [] => None
  | (k, v) :: rest => if String.eqb k key then Some v else lookup key rest
  end.

(** [obj.get(key, default)]; only a dict has the method. *)
Definition get (obj : value) (key : string) (default : value) : outcome value :=
  match obj with
  | VDict items =>
      Return (match lookup key items with Some v => v | None => default end)
  | _ =>
      Raise (mkExc AttributeError
               ("'" ++ type_name obj ++ "' object has no attribute 'get'"))
  end.

(** [len(s)] where [s] is the [content] of a chat message ([None] when the
    message carries no text). *)
Definition len_content (s : option string) : outcome Z :=
  match s with
  | Some t => Return (Z.of_nat (String.length t))
  | None => Raise (mkExc TypeError "object of type 'NoneType' has no len()")
  end.

(** [values[0]] *)
Definition first (values : list value) : outcome value :=
  match values with
  | v :: _ => Return v
  | [] => Raise (mkExc IndexError "list index out of range")
  end.

End Py.

Notation "x <- m ;; k" := (Py.bind m (fun x => k))
  (at level 61, m at next level, right associativity).
Notation "' pat <- m ;; k" := (Py.bind m (fun x => match x with pat => k end))
  (at level 61, pat pattern, m at next level, right associativity).

(** ** grading_engine.py *)

Module GradingEngine.
Import Py.

(** What one request to the chat-completion service does: the request raises
    (with [str(e) = cause]) or it yields a value. *)
Inductive reply (A : Type) : Type :=
| Fails (cause : string)
| Gives (a : A).
Arguments Fails {A} cause.
Arguments Gives {A} a.

(** The service as [grade_submission] uses it in run number [run].
    - [execution run system user] is
      [client.chat.completions.create(...).choices[0].message.content] of the
      first request (lines 31-40); the content may be [None].
    - [evaluation run system user] is [json.loads] of the content of the
      second request (lines 73-83): the request or the decoding raises, or
      the decoded value is returned. *)
Record oracle : Type := mkOracle {
  execution : nat -> string -> string -> reply (option string);
  evaluation : nat -> string -> string -> reply value
}.

Definition evaluator_system : string :=
  "You are a prompt evaluation expert. Always respond in valid JSON format.".

(** The f-string of lines 44-71. *)
Definition evaluation_prompt (task_prompt user_prompt output : string) : string :=
  nl ++ "당신은 프롬프트 평가 전문가입니다." ++ nl ++ nl
  ++ "**과제 설명:**" ++ nl ++ task_prompt ++ nl ++ nl
  ++ "**제출된 프롬프트:**" ++ nl ++ user_prompt ++ nl ++ nl
  ++ "**프롬프트 실행 결과:**" ++ nl ++ output ++ nl ++ nl
  ++ "다음 기준으로 제출된 프롬프트를 평가해주세요:" ++ nl ++ nl
  ++ "1. **과제 이해도 (20점)**: 프롬프트가 과제 요구사항을 정확히 이해했는가?" ++ nl
  ++ "2. **명확성 (20점)**: 프롬프트가 명확하고 구체적인가?" ++ nl
  ++ "3. **창의성 (20점)**: 독창적이고 효과적인 접근 방식인가?" ++ nl
  ++ "4. **실행 결과 품질 (20점)**: 실제 출력물이 과제 목표를 달성했는가?" ++ nl
  ++ "5. **완성도 (20점)**: 전체적으로 완성도가 높은가?" ++ nl ++ nl
  ++ "**응답 형식 (JSON):**" ++ nl
  ++ "{" ++ nl
  ++ "    " ++ dq ++ "score" ++ dq ++ ": <0-100 사이의 점수>," ++ nl
  ++ "    " ++ dq ++ "feedback" ++ dq ++ ": " ++ dq
  ++ "<구체적인 피드백 (200자 이내)>" ++ dq ++ "," ++ nl
  ++ "    " ++ dq ++ "strengths" ++ dq ++ ": " ++ dq ++ "<강점>" ++ dq ++ "," ++ nl
  ++ "    " ++ dq ++ "improvements" ++ dq ++ ": " ++ dq ++ "<개선점>" ++ dq ++ nl
  ++ "}" ++ nl.

(** An exception raised inside the [try] block is seen by the handler only
    through [str(e)]. *)
Definition attempt {A : Type} (m : outcome A) : reply A :=
  match m with
  | Raise e => Fails (exc_str e)
  | Return a => Gives a
  end.

Definition and_then {A B : Type} (m : reply A) (k : A -> reply B) : reply B :=
  match m with
  | Fails c => Fails c
  | Gives a => k a
  end.

(** The body of the [try] block (lines 28-90) for one run: the score and the
    feedback it appends, or the [str(e)] of the exception it raises. *)
Definition run_body (client : oracle) (task_prompt user_prompt : string)
    (run : nat) : reply (value * value) :=
  and_then (execution client run task_prompt user_prompt) (fun output =>
  and_then (attempt (len_content output)) (fun _ =>
  and_then (evaluation client run evaluator_system
              (evaluation_prompt task_prompt user_prompt
                 (match output with Some t => t | None => "None" end)))
           (fun result =>
  and_then (attempt (get result "score" (VInt 0))) (fun score =>
  and_then (attempt (get result "feedback" (VStr ""))) (fun feedback =>
  Gives (score, feedback)))))).

Definition error_prefix : string := "프롬프트 실행 실패: ".

(** The [for run in range(num_runs)] loop over the remaining run numbers;
    [scores] and [feedbacks] are the two lists built so far. The handler
    re-raises, which leaves the function. *)
Fixpoint run_loop (client : oracle) (task_prompt user_prompt : string)
    (runs : list nat) (scores feedbacks : list value)
  : outcome (list value * list value) :=
  match runs with
  | [] => Return (scores, feedbacks)
  | run :: rest =>
      match run_body client task_prompt user_prompt run with
      | Fails cause => Raise (mkExc Exception (error_prefix ++ cause))
      | Gives (score, feedback) =>
          run_loop client task_prompt user_prompt rest
            (scores ++ [score]) (feedbacks ++ [feedback])
      end
  end.

(** [range(n)] *)
Definition range (n : Z) : list nat := seq 0 (Z.to_nat n).

(** The dict returned by [grade_submission]. *)
Record grading_result : Type := mkResult {
  average_score : Q;
  detailed_scores : list value;
  feedback : string
}.

Definition grade_submission (client : oracle) (task_prompt user_prompt : string)
    (num_runs : Z) : outcome grading_result :=
  '(scores, feedbacks) <- run_loop client task_prompt user_prompt
                            (range num_runs) [] [] ;;
  total <- sum scores ;;
  average_score <- truediv total (Z.of_nat (length scores)) ;;
  each <- format_all_2f scores ;;
  representative <- first feedbacks ;;
  tail <- str_concat ("종합 피드백:" ++ nl) representative ;;
  Return (mkResult (round2 average_score) scores
            ("평균 점수: " ++ format_2f average_score ++ "점" ++ nl ++ nl
             ++ "각 실행별 점수: "
             ++ String.concat ", " (map (fun s => s ++ "점") each) ++ nl ++ nl
             ++ tail)).

(** The default of the [num_runs] parameter. *)
Definition default_num_runs : Z := 3.

End GradingEngine.

(** ** main.py: the store and the grading endpoints *)

Module Main.
Import Py.

(** The four literals the code writes to the [status] column. *)
Inductive status : Type := pending | grading | completed | error.

Definition status_eqb (a b : status) : bool :=
  match a, b with
  | pending, pending | grading, grading
  | completed, completed | error, error => true
  | _, _ => false
  end.

Record competition : Type := mkCompetition {
  c_id : Z;
  c_name : string;
  c_description : option string
}.

Record assignment : Type := mkAssignment {
  a_id : Z;
  a_competition_id : Z;
  a_name : string;
  a_prompt : string
}.

(** A row of the [submissions] table. [s_grading_details] holds the JSON
    text written by [json.dumps]; it is represented by the list it encodes. *)
Record submission : Type := mkSubmission {
  s_id : Z;
  s_competition_id : Z;
  s_participant_id : Z;
  s_assignment_id : Z;
  s_prompt_text : string;
  s_status : status;
  s_score : option Q;
  s_feedback : option string;
  s_grading_details : option (list value)
}.

Record database : Type := mkDatabase {
  competitions : list competition;
  assignments : list assignment;
  submissions : list submission
}.

(** What a connection does, in order: the table contents after each UPDATE
    statement, each [commit()], and each call of the grader. *)
Inductive event : Type :=
| Executed (after : database)
| Committed (visible : database)
| GraderCalled (submission_id : Z).

Record world : Type := mkWorld { db : database; log : list event }.

(** Code that uses a connection. *)
Definition conn (A : Type) : Type := world -> A * world.

Definition pure {A : Type} (a : A) : conn A := fun w => (a, w).

Definition then_ {A B : Type} (m : conn A) (k : A -> conn B) : conn B :=
  fun w => let (a, w') := m w in k a w'.

(** [c.execute("SELECT ...")] followed by a fetch. *)
Definition select {A : Type} (query : database -> A) : conn A :=
  fun w => (query (db w), w).

(** [UPDATE submissions SET ... WHERE id = ?] *)
Definition update_where_id (submission_id : Z) (set : submission -> submission)
    (d : database) : database :=
  mkDatabase (competitions d) (assignments d)
    (map (fun r => if s_id r =? submission_id then set r else r) (submissions d)).

Definition execute_update (submission_id : Z) (set : submission -> submission)
  : conn unit :=
  fun w =>
    let d := update_where_id submission_id set (db w) in
    (tt, mkWorld d (log w ++ [Executed d])).

Definition commit : conn unit :=
  fun w => (tt, mkWorld (db w) (log w ++ [Committed (db w)])).

Definition set_grading (r : submission) : submission :=
  mkSubmission (s_id r) (s_competition_id r) (s_participant_id r)
    (s_assignment_id r) (s_prompt_text r)
    grading (s_score r) (s_feedback r) (s_grading_details r).

Definition set_completed (result : GradingEngine.grading_result)
    (r : submission) : submission :=
  mkSubmission (s_id r) (s_competition_id r) (s_participant_id r)
    (s_assignment_id r) (s_prompt_text r)
    completed
    (Some (GradingEngine.average_score result))
    (Some (GradingEngine.feedback result))
    (Some (GradingEngine.detailed_scores result)).

Definition set_error (message : string) (r : submission) : submission :=
  mkSubmission (s_id r) (s_competition_id r) (s_participant_id r)
    (s_assignment_id r) (s_prompt_text r)
    error (s_score r) (Some message) (s_grading_details r).

(** A row of the snapshot query: [s.*] and [a.prompt as assignment_prompt]. *)
Record pending_row : Type := mkPending {
  p_submission : submission;
  assignment_prompt : string
}.

(** [SELECT s.*, a.prompt as assignment_prompt FROM submissions s
     JOIN assignments a ON s.assignment_id = a.id
     WHERE s.competition_id = ? AND s.status = 'pending'] *)
Definition select_pending (competition_id : Z) (d : database) : list pending_row :=
  flat_map
    (fun s =>
       if (s_competition_id s =? competition_id) && status_eqb (s_status s) pending
       then map (fun a => mkPending s (a_prompt a))
                (filter (fun a => s_assignment_id s =? a_id a) (assignments d))
       else [])
    (submissions d).

(** The grader is called with the default [num_runs]; the handler catches
    every [Exception]. *)
Definition call_grader (client : GradingEngine.oracle) (submission : pending_row)
  : conn (outcome GradingEngine.grading_result) :=
  fun w =>
    (GradingEngine.grade_submission client (assignment_prompt submission)
       (s_prompt_text (p_submission submission)) GradingEngine.default_num_runs,
     mkWorld (db w) (log w ++ [GraderCalled (s_id (p_submission submission))])).

(** The body of the [for] loop (lines 364-401). *)
Definition grade_one (client : GradingEngine.oracle) (submission : pending_row)
  : conn unit :=
  let submission_id := s_id (p_submission submission) in
  then_ (execute_update submission_id set_grading) (fun _ =>
  then_ commit (fun _ =>
  then_ (call_grader client submission) (fun graded =>
  then_ (match graded with
         | Return result => execute_update submission_id (set_completed result)
         | Raise e =>
             execute_update submission_id
               (set_error ("Grading failed: " ++ exc_str e))
         end) (fun _ =>
  commit)))).

(** [for idx, submission in enumerate(submissions, idx)]; the service may
    behave differently for each submission, so it is indexed by [idx]. *)
Fixpoint grade_each (client : nat -> GradingEngine.oracle) (idx : nat)
    (rows : list pending_row) : conn unit :=
  match rows with
  | [] => pure tt
  | submission :: rest =>
      then_ (grade_one (client idx) submission) (fun _ =>
      grade_each client (S idx) rest)
  end.

Definition grade_all_submissions_background (client : nat -> GradingEngine.oracle)
    (competition_id : Z) : conn unit :=
  then_ (select (select_pending competition_id)) (fun rows =>
  grade_each client 1%nat rows).

(** [SELECT COUNT( * ) FROM submissions WHERE competition_id = ? AND
    status = 'pending'] *)
Definition count_pending (competition_id : Z) (d : database) : Z :=
  Z.of_nat
    (length
       (filter
          (fun s =>
             (s_competition_id s =? competition_id)
             && status_eqb (s_status s) pending)
          (submissions d))).

(** [SELECT id FROM competitions WHERE id = ?] followed by [fetchone()] *)
Definition select_competition (competition_id : Z) (d : database) : option Z :=
  option_map c_id (find (fun c => c_id c =? competition_id) (competitions d)).

(** The JSON body of a response. *)
Record response : Type := mkResponse { message : string }.

(** [start_grading]: [background_tasks] is the list of competition ids for
    which [grade_all_submissions_background] has been scheduled; the
    function returns it as it leaves it. *)
Definition start_grading (competition_id : Z) (background_tasks : list Z)
  : conn (outcome response * list Z) :=
  then_ (select (select_competition competition_id)) (fun found =>
  match found with
  | None =>
      pure (Raise (mkExc (HTTPException 404) "Competition not found"),
            background_tasks)
  | Some _ =>
      then_ (select (count_pending competition_id)) (fun count =>
      if count =? 0 then
        pure (Return (mkResponse "No pending submissions to grade"),
              background_tasks)
      else
        pure (Return (mkResponse
                        ("Grading started for " ++ digits count ++ " submissions")),
              (background_tasks ++ [competition_id])%list))
  end).

End Main.

(** ** Notions used to state the properties *)

Module Spec.
Import Py GradingEngine Main.

(** The number a score stands for. *)
Definition score_of (v : value) : Q :=
  match as_num v with
  | Some n => to_Q n
  | None => 0%Q
  end.

Definition is_number (v : value) : bool :=
  match as_num v with
  | Some _ => true
  | None => false
  end.

Fixpoint total (scores : list value) : Q :=
  match scores with
  | [] => 0%Q
  | v :: rest => (score_of v + total rest)%Q
  end.




(** The record the evaluator is asked for: an object with a numeric [score],
    a string [feedback], and [strengths] and [improvements] fields. *)
Definition well_formed_record (v : value) : bool :=
  match v with
  | VDict items =>
      match lookup "score" items, lookup "feedback" items,
            lookup "strengths" items, lookup "improvements" items with
      | Some s, Some (VStr _), Some _, Some _ => is_number s
      | _, _, _, _ => false
      end
  | _ => false
  end.

End Spec.

(** ** The life cycle of a submission during a batch pass *)

Module Lifecycle.
Import Py GradingEngine Main.

Definition terminal (st : status) : Prop := st = completed \/ st = error.

(** The store shows submission [submission_id] with status [st]. *)
Definition observed (d : database) (submission_id : Z) (st : status) : Prop :=
  exists r, In r (submissions d) /\ s_id r = submission_id /\ s_status r = st.

(** The PRIMARY KEY constraints of the two tables the pass reads. *)
Definition primary_keys (d : database) : Prop :=
  NoDup (map s_id (submissions d)) /\ NoDup (map a_id (assignments d)).

(** The table contents a connection went through. *)
Definition states (events : list event) : list database :=
  flat_map
    (fun e =>
       match e with
       | Executed d => [d]
       | Committed d => [d]
       | GraderCalled _ => []
       end)
    events.

(** What the second UPDATE of an iteration writes. *)
Definition settle (graded : outcome grading_result) : submission -> submission :=
  match graded with
  | Return result => set_completed result
  | Raise e => set_error ("Grading failed: " ++ exc_str e)
  end.

Definition graded_by (client : oracle) (p : pending_row) : outcome grading_result :=
  grade_submission client (assignment_prompt p)
    (s_prompt_text (p_submission p)) default_num_runs.

(** One iteration of the loop as a function of the tables: its events and
    the tables it leaves ([grade_one_iteration] relates it to [grade_one]). *)
Definition iteration (client : oracle) (p : pending_row) (d : database)
  : list event * database :=
  let submission_id := s_id (p_submission p) in
  let d1 := update_where_id submission_id set_grading d in
  let d2 := update_where_id submission_id (settle (graded_by client p)) d1 in
  ([Executed d1; Committed d1; GraderCalled submission_id;
    Executed d2; Committed d2], d2).

(** The loop as a function of the tables ([grade_each_pass] relates it to
    [grade_each]). *)
Fixpoint pass (client : nat -> oracle) (idx : nat) (rows : list pending_row)
    (d : database) : list event * database :=
  match rows with
  | [] => ([], d)
  | p :: rest =>
      let (events, d') := iteration (client idx) p d in
      let (later, d'') := pass client (S idx) rest d' in
      ((events ++ later)%list, d'')
  end.

(** What the whole loop does to one row ([pass_submissions]). *)
Fixpoint row_pass (client : nat -> oracle) (idx : nat) (rows : list pending_row)
    (r : submission) : submission :=
  match rows with
  | [] => r
  | p :: rest =>
      row_pass client (S idx) rest
        (if s_id r =? s_id (p_submission p)
         then settle (graded_by (client idx) p) (set_grading r)
         else r)
  end.

(** The changes one UPDATE of the pass can make to a row. *)
Inductive row_step : submission -> submission -> Prop :=
| step_begin r :
    s_status r = pending -> row_step r (set_grading r)
| step_completed r result :
    s_status r = grading -> feedback result <> "" ->
    row_step r (set_completed result r)
| step_error r text :
    s_status r = grading -> row_step r (set_error text r).

Inductive row_le : submission -> submission -> Prop :=
| le_refl r : row_le r r
| le_step r1 r2 r3 : row_le r1 r2 -> row_step r2 r3 -> row_le r1 r3.

Definition db_le (d d' : database) : Prop :=
  Forall2 row_le (submissions d) (submissions d').

Fixpoint chain {A : Type} (R : A -> A -> Prop) (x : A) (l : list A) : Prop :=
  match l with
  | [] => True
  | y :: rest => R x y /\ chain R y rest
  end.

(** Every call of the grader comes right after a commit that shows the
    submission as [grading]; [shown] is the last commit when nothing has
    happened since. *)
Fixpoint calls_follow_commit (shown : option database) (events : list event)
  : Prop :=
  match events with
  | [] => True
  | Executed _ :: rest => calls_follow_commit None rest
  | Committed d :: rest => calls_follow_commit (Some d) rest
  | GraderCalled submission_id :: rest =>
      (exists d, shown = Some d
                 /\ observed d submission_id grading
                 /\ forall st, observed d submission_id st -> st = grading)
      /\ calls_follow_commit None rest
  end.

(** The rows of the snapshot that are still to be graded have not been
    touched. *)
Definition still_pending (rows : list pending_row) (d : database) : Prop :=
  forall p r, In p rows -> In r (submissions d) ->
    s_id r = s_id (p_submission p) -> s_status r = pending.


End Lifecycle.

(** ** Sample services and tables *)

Module Samples.
Import Py GradingEngine Main.

Definition task : string := "Summarize this text in one sentence".
Definition text : string := "Summarize: {text}".

Definition judgment (score : value) : value :=
  VDict [("score", score); ("feedback", VStr "clear and specific");
         ("strengths", VStr "concise"); ("improvements", VStr "add context")].

(** The evaluator scores run [i] with the [i]-th element of [scores]. *)
Definition steady (scores : list Z) : oracle :=
  mkOracle
    (fun _ _ _ => Gives (Some "A one-sentence summary."))
    (fun run _ _ => Gives (judgment (VInt (nth run scores 0)))).

(** The second run (number 1) is refused by the service. *)
Definition rate_limited : oracle :=
  mkOracle
    (fun _ _ _ => Gives (Some "A one-sentence summary."))
    (fun run _ _ =>
       if (run =? 1)%nat then Fails "rate limit exceeded"
       else Gives (judgment (VInt 80))).

(** The evaluator answers with the empty JSON object. *)
Definition empty_object : oracle :=
  mkOracle
    (fun _ _ _ => Gives (Some "A one-sentence summary."))
    (fun _ _ _ => Gives (VDict [])).

(** The evaluator's answer is not JSON. *)
Definition undecodable : oracle :=
  mkOracle
    (fun _ _ _ => Gives (Some "A one-sentence summary."))
    (fun _ _ _ => Fails "Expecting value: line 1 column 1 (char 0)").

Definition fresh (id assignment_id : Z) : submission :=
  mkSubmission id 1 id assignment_id text pending None None None.

Definition two_pending : database :=
  mkDatabase [mkCompetition 1 "Spring" None]
    [mkAssignment 7 1 "summary" task]
    [fresh 1 7; fresh 2 7].

Definition one_pending : database :=
  mkDatabase [mkCompetition 1 "Spring" None]
    [mkAssignment 7 1 "summary" task]
    [fresh 1 7].

Definition none_pending : database :=
  mkDatabase [mkCompetition 1 "Spring" None]
    [mkAssignment 7 1 "summary" task]
    [mkSubmission 1 1 1 7 text completed (Some 80%Q) (Some "ok")
       (Some [VInt 80; VInt 85; VInt 75])].

(** The first submission of a pass is graded well, the others hit the
    rate limit. *)
Definition first_only (idx : nat) : oracle :=
  if (idx =? 1)%nat then steady [80; 85; 75] else rate_limited.

End Samples.

(** ** Notions for the store *)

Module Store.
Import Py GradingEngine Main.

(** The columns of a submission that no UPDATE of the grading code names. *)
Definition static_columns (r : submission) : Z * Z * Z * Z * string :=
  (s_id r, s_competition_id r, s_participant_id r, s_assignment_id r,
   s_prompt_text r).

(** The submissions for which the grader was called, in order. *)
Definition grader_calls (events : list event) : list Z :=
  flat_map
    (fun e =>
       match e with
       | GraderCalled submission_id => [submission_id]
       | _ => []
       end)
    events.

Definition commits (events : list event) : list database :=
  flat_map
    (fun e =>
       match e with
       | Committed d => [d]
       | _ => []
       end)
    events.

(** The row is one of those the snapshot of the pass holds. *)
Definition taken (competition_id : Z) (d : database) (r : submission) : bool :=
  existsb (fun i => i =? s_id r)
    (map (fun p => s_id (p_submission p)) (select_pending competition_id d)).

End Store.

(** ** main.py: the progress query *)

Module Progress.
Import Py GradingEngine Main.

Definition all_statuses : list status := [pending; grading; completed; error].

(** [SELECT status, COUNT( * ) as count FROM submissions
     WHERE competition_id = ? GROUP BY status]: one row for each status
    that occurs, with the number of its rows. *)
Definition select_status_counts (competition_id : Z) (d : database)
  : list (status * Z) :=
  filter (fun group => 0 <? snd group)
    (map
       (fun st =>
          (st,
           Z.of_nat
             (length
                (filter
                   (fun s =>
                      (s_competition_id s =? competition_id)
                      && status_eqb (s_status s) st)
                   (submissions d)))))
       all_statuses).

(** [status_counts.get(key, default)] on the dict built from these rows. *)
Fixpoint dict_get (status_counts : list (status * Z)) (key : status)
    (default : Z) : Z :=
  match status_counts with
  | [] => default
  | (st, count) :: rest =>
      if status_eqb st key then count else dict_get rest key default
  end.

(** [sum(status_counts.values())] *)
Definition sum_values (status_counts : list (status * Z)) : Z :=
  fold_left (fun acc group => acc + snd group) status_counts 0.

(** The JSON object returned by [get_grading_status]. *)
Record progress : Type := mkProgress {
  n_total : Z;
  n_pending : Z;
  n_grading : Z;
  n_completed : Z;
  n_error : Z
}.

Definition get_grading_status (competition_id : Z) : conn progress :=
  then_ (select (select_status_counts competition_id)) (fun status_counts =>
  let total := sum_values status_counts in
  pure (mkProgress total
          (dict_get status_counts pending 0)
          (dict_get status_counts grading 0)
          (dict_get status_counts completed 0)
          (dict_get status_counts error 0))).

(** The number of submissions of a competition with a given status. *)
Definition rows_with (competition_id : Z) (st : status) (d : database) : Z :=
  Z.of_nat
    (length
       (filter
          (fun s =>
             (s_competition_id s =? competition_id)
             && status_eqb (s_status s) st)
          (submissions d))).

End Progress.

(** ** main.py: the leaderboard *)

Module Leaderboard.
Import Py Main.

(** A row of the leaderboard query (lines 466-480): a participant with the
    average of the scores of their submissions ([None] for SQL NULL, when
    there is no score), the number of their submissions and the number of
    the completed ones. The query orders the rows by [average_score],
    highest first, NULL last. *)
Record row : Type := mkRow {
  l_id : Z;
  l_name : string;
  l_email : option string;
  l_student_id : option string;
  l_average_score : option Q;
  l_submission_count : Z;
  l_graded_count : Z
}.

(** [dict(row)] with the added key [rank]. *)
Record entry : Type := mkEntry {
  e_row : row;
  e_rank : option Z
}.

(** The loop of lines 484-489, from the current value of [rank]. *)
Fixpoint rank_rows (rank : Z) (rows : list row) : list entry :=
  match rows with
  | [] => []
  | r :: rest =>
      match l_average_score r with
      | Some _ => mkEntry r (Some rank) :: rank_rows (rank + 1) rest
      | None => mkEntry r None :: rank_rows rank rest
      end
  end.

(** [get_leaderboard], given the rows the query returned. *)
Definition get_leaderboard (fetched : list row) : list entry :=
  rank_rows 1 fetched.

Definition scored (r : row) : bool :=
  match l_average_score r with
  | Some _ => true
  | None => false
  end.

(** The ranks that were given, in the order of the board. *)
Definition ranks (board : list entry) : list Z :=
  flat_map
    (fun e =>
       match e_rank e with
       | Some k => [k]
       | None => []
       end)
    board.

End Leaderboard.

(** ** main.py: the score distribution of the report *)

Module Report.
Import Py Main.

(** The dict [score_bins] (lines 584-590). *)
Record score_bins : Type := mkBins {
  bin_0_20 : Z;
  bin_21_40 : Z;
  bin_41_60 : Z;
  bin_61_80 : Z;
  bin_81_100 : Z
}.

(** [scores = [s['score'] for s in submissions if s['score'] is not None]] *)
Definition report_scores (rows : list submission) : list Q :=
  flat_map
    (fun s =>
       match s_score s with
       | Some q => [q]
       | None => []
       end)
    rows.

(** The body of the loop of lines 592-602. *)
Definition count_score (bins : score_bins) (score : Q) : score_bins :=
  if Qle_bool score 20 then
    mkBins (bin_0_20 bins + 1) (bin_21_40 bins) (bin_41_60 bins)
      (bin_61_80 bins) (bin_81_100 bins)
  else if Qle_bool score 40 then
    mkBins (bin_0_20 bins) (bin_21_40 bins + 1) (bin_41_60 bins)
      (bin_61_80 bins) (bin_81_100 bins)
  else if Qle_bool score 60 then
    mkBins (bin_0_20 bins) (bin_21_40 bins) (bin_41_60 bins + 1)
      (bin_61_80 bins) (bin_81_100 bins)
  else if Qle_bool score 80 then
    mkBins (bin_0_20 bins) (bin_21_40 bins) (bin_41_60 bins)
      (bin_61_80 bins + 1) (bin_81_100 bins)
  else
    mkBins (bin_0_20 bins) (bin_21_40 bins) (bin_41_60 bins)
      (bin_61_80 bins) (bin_81_100 bins + 1).

Definition score_distribution (scores : list Q) : score_bins :=
  fold_left count_score scores (mkBins 0 0 0 0 0).

Definition indicator (b : bool) : Z := if b then 1 else 0.

(** The number of scores that satisfy a test. *)
Definition how_many (test : Q -> bool) (scores : list Q) : Z :=
  Z.of_nat (length (filter test scores)).

(** The loop of lines 557-563 on one statistic: a value is rounded when it
    is truthy, that is neither NULL nor zero. *)
Definition round_if_truthy (x : option Q) : option Q :=
  match x with
  | Some q => if Qeq_bool q 0 then Some q else Some (round2 q)
  | None => None
  end.

End Report.

(** ** main.py: the upload of submissions *)

Module Upload.
Import Py GradingEngine Main.

(** Python strings are kept as their UTF-8 bytes. The characters the code
    looks for (the underscore, the dot and the slash) are ASCII, and an
    ASCII byte never occurs inside the encoding of another character, so
    searching and cutting the bytes gives what Python gives on the
    characters. *)

(** [s.endswith(suffix)] *)
Fixpoint endswith (s suffix : string) : bool :=
  String.eqb s suffix
  || match s with
     | EmptyString => false
     | String _ rest => endswith rest suffix
     end.

(** [s.rfind(c)] for a character [c]: the index of its last occurrence;
    [None] stands for -1. *)
Fixpoint rfind (c : ascii) (s : string) : option nat :=
  match s with
  | EmptyString => None
  | String x rest =>
      match rfind c rest with
      | Some i => Some (S i)
      | None => if Ascii.eqb x c then Some 0%nat else None
      end
  end.

(** All characters are dots: the scan over the leading dots of the file
    name in [os.path.splitext] found nothing else. *)
Fixpoint only_dots (s : string) : bool :=
  match s with
  | EmptyString => true
  | String x rest => Ascii.eqb x "." && only_dots rest
  end.

(** [os.path.splitext(p)] of [posixpath]: the extension starts at the last
    dot, when this dot lies after the last slash and some character between
    that slash and the dot is not a dot. *)
Definition splitext (p : string) : string * string :=
  match rfind "." p with
  | None => (p, "")
  | Some dotIndex =>
      let filenameIndex :=
        match rfind "/" p with
        | Some sepIndex => S sepIndex
        | None => 0%nat
        end in
      if (filenameIndex <=? dotIndex)%nat
         && negb (only_dots (substring filenameIndex (dotIndex - filenameIndex) p))
      then (substring 0 dotIndex p,
            substring dotIndex (String.length p - dotIndex) p)
      else (p, "")
  end.

(** [s.split(c)] for a character [c] *)
Fixpoint split_on (c : ascii) (s : string) : list string :=
  match s with
  | EmptyString => [""]
  | String x rest =>
      if Ascii.eqb x c then "" :: split_on c rest
      else
        match split_on c rest with
        | part :: parts => String x part :: parts
        | [] => [String x ""]
        end
  end.

(** Lines 290-297: the participant and the assignment a file name stands
    for; [None] when the file is passed over without a word. *)
Definition parse_file_name (decoded_name : string) : option (string * string) :=
  if endswith decoded_name ".txt" then
    let base_name := fst (splitext decoded_name) in
    let parts := split_on "_" base_name in
    if (2 <=? length parts)%nat then
      match parts with
      | participant_name :: rest => Some (participant_name, String.concat "_" rest)
      | [] => None
      end
    else None
  else None.

(** A row of the [participants] table. *)
Record participant : Type := mkParticipant {
  pt_id : Z;
  pt_competition_id : Z;
  pt_name : string;
  pt_email : option string;
  pt_student_id : option string
}.

(** [{row['name']: dict(row) for row in rows}.get(key)]: of the rows with
    the same name the last one stays in the dict. *)
Definition get_by_name {A : Type} (name : A -> string) (rows : list A)
    (key : string) : option A :=
  find (fun r => String.eqb (name r) key) (rev rows).

(** The [id] an INSERT gives to a new row of a table with AUTOINCREMENT
    whose rows were all inserted this way and never deleted (the code has no
    DELETE): one more than the largest id. *)
Definition next_id (rows : list submission) : Z :=
  1 + fold_right Z.max 0 (map s_id rows).

(** [INSERT INTO submissions (competition_id, participant_id, assignment_id,
     prompt_text, status) VALUES (?, ?, ?, ?, 'pending')] *)
Definition insert_submission (competition_id participant_id assignment_id : Z)
    (prompt_text : string) (rows : list submission) : list submission :=
  (rows ++ [mkSubmission (next_id rows) competition_id participant_id
              assignment_id prompt_text pending None None None])%list.

(** [str(b)] *)
Definition bool_str (b : bool) : string := if b then "True" else "False".

Definition is_some {A : Type} (x : option A) : bool :=
  match x with
  | Some _ => true
  | None => false
  end.

(** The local variables of the loop over the archive. *)
Record upload_state : Type := mkState {
  table : list submission;
  submissions_added : Z;
  skipped : list string
}.

(** The body of the loop (lines 278-314) for one member of the archive:
    [file_name] and what [zip_file.read(file_name).decode('utf-8')] does,
    which is only evaluated for a known participant and assignment. Its
    failure is that of the decoding (a [UnicodeDecodeError], which is a
    [ValueError]); nothing catches it. *)
Definition upload_one (competition_id : Z)
    (participants : list participant) (assignments_ : list assignment)
    (member : string * reply string) (state : upload_state) : outcome upload_state :=
  let (file_name, content) := member in
  match parse_file_name file_name with
  | None => Return state
  | Some (participant_name, assignment_name) =>
      match get_by_name pt_name participants participant_name,
            get_by_name a_name assignments_ assignment_name with
      | Some p, Some a =>
          match content with
          | Fails cause => Raise (mkExc ValueError cause)
          | Gives prompt_text =>
              Return (mkState
                        (insert_submission competition_id (pt_id p) (a_id a)
                           prompt_text (table state))
                        (submissions_added state + 1)
                        (skipped state))
          end
      | found_p, found_a =>
          Return (mkState (table state) (submissions_added state)
                    (skipped state
                     ++ [participant_name ++ "_" ++ assignment_name
                         ++ " (participant: " ++ bool_str (is_some found_p)
                         ++ ", assignment: " ++ bool_str (is_some found_a)
                         ++ ")"]))
      end
  end.

Fixpoint upload_each (competition_id : Z)
    (participants : list participant) (assignments_ : list assignment)
    (archive : list (string * reply string)) (state : upload_state)
  : outcome upload_state :=
  match archive with
  | [] => Return state
  | member :: rest =>
      state' <- upload_one competition_id participants assignments_ member state ;;
      upload_each competition_id participants assignments_ rest state'
  end.

(** The JSON body of the answer; [r_skipped] is [None] when the key is
    absent. *)
Record answer : Type := mkAnswer {
  r_message : string;
  r_skipped : option (list string)
}.

(** [upload_submissions]. [all_participants] is the [participants] table
    and [archive] the members of the uploaded ZIP file in the order of
    [namelist()]. The second component is the content of the tables after
    the request: the inserts are committed at the end (line 316); when
    reading a member raises, the function is left before the commit and the
    connection is dropped, so nothing is stored. *)
Definition upload_submissions (all_participants : list participant)
    (archive : list (string * reply string)) (competition_id : Z)
    (d : database) : outcome answer * database :=
  match select_competition competition_id d with
  | None => (Raise (mkExc (HTTPException 404) "Competition not found"), d)
  | Some _ =>
      let assignments_ :=
        filter (fun a => a_competition_id a =? competition_id) (assignments d) in
      let participants :=
        filter (fun p => pt_competition_id p =? competition_id) all_participants in
      match upload_each competition_id participants assignments_ archive
              (mkState (submissions d) 0 []) with
      | Raise e => (Raise e, d)
      | Return state =>
          (Return (mkAnswer
                     (digits (submissions_added state)
                      ++ " submissions uploaded successfully")
                     (match skipped state with
                      | [] => None
                      | _ => Some (skipped state)
                      end)),
           mkDatabase (competitions d) (assignments d) (table state))
      end
  end.

(** What [upload_submissions] stores for one file of competition
    [competition_id]: a [pending] row without results that refers to a
    participant and an assignment of that competition. *)
Definition fresh_row (competition_id : Z) (all_participants : list participant)
    (d : database) (r : submission) : Prop :=
  s_competition_id r = competition_id
  /\ s_status r = pending
  /\ s_score r = None /\ s_feedback r = None /\ s_grading_details r = None
  /\ (exists p, In p all_participants
                /\ pt_competition_id p = competition_id
                /\ pt_id p = s_participant_id r)
  /\ (exists a, In a (assignments d)
                /\ a_competition_id a = competition_id
                /\ a_id a = s_assignment_id r).

End Upload.

(** ** More sample services *)

Module MoreSamples.
Import Py GradingEngine Main Samples.



(** As [steady], with another feedback text from the second run on. *)
Definition talkative (scores : list Z) : oracle :=
  mkOracle
    (fun _ _ _ => Gives (Some "Another summary."))
    (fun run _ _ =>
       Gives (VDict [("score", VInt (nth run scores 0));
                     ("feedback",
                      VStr (if (run =? 0)%nat then "clear and specific"
                            else "could be shorter"))])).

(** A pending submission (id 3) refers to an assignment that does not
    exist; submission 4 belongs to another competition. *)
Definition with_orphan : database :=
  mkDatabase [mkCompetition 1 "Spring" None; mkCompetition 2 "Autumn" None]
    [mkAssignment 7 1 "summary" task]
    [fresh 1 7; fresh 3 9;
     mkSubmission 4 2 4 7 text pending None None None].

Definition board_rows : list Leaderboard.row :=
  [Leaderboard.mkRow 10 "kim" None None (Some 90%Q) 2 2;
   Leaderboard.mkRow 11 "lee" None None (Some 90%Q) 1 1;
   Leaderboard.mkRow 12 "park" None None None 1 0].

Definition roster : list Upload.participant :=
  [Upload.mkParticipant 10 1 "kim" None None;
   Upload.mkParticipant 11 1 "lee" None None;
   Upload.mkParticipant 12 2 "park" None None].

Definition zip_members : list (string * reply string) :=
  [("kim_summary.txt", Gives "Summarize in one sentence: {text}");
   ("lee_other.txt", Gives "x");
   ("readme.md", Gives "")].

End MoreSamples.


(** * Properties *)

Import Py GradingEngine Main Spec Lifecycle Samples.

(** The sample tables respect their primary keys: by inspection. *)
Ltac keys_by_inspection :=
  split; simpl; repeat constructor; simpl; intuition discriminate.


(** ** Rounding *)

Section Rounding.
Local Open Scope Q_scope.


Lemma round_half_even_comp (x y : Q) :
  x == y -> round_half_even x = round_half_even y.
Proof.
  intros E. unfold round_half_even.
  rewrite (Qfloor_comp x y E).
  assert (C : (x - inject_Z (Qfloor y) ?= 1 # 2) = (y - inject_Z (Qfloor y) ?= 1 # 2)).
  { apply Qcompare_comp; [rewrite E; reflexivity | reflexivity]. }
  rewrite C. reflexivity.
Qed.



Lemma round2_comp (x y : Q) : x == y -> round2 x = round2 y.
Proof.
  intros E. unfold round2.
  rewrite (round_half_even_comp (x * 100) (y * 100)); [reflexivity |].
  rewrite E. reflexivity.
Qed.




End Rounding.

(** ** The run loop *)

Section RunLoop.
Variable client : oracle.
Variables task_prompt user_prompt : string.



(** Every remaining run completes: the loop returns the two lists. *)
Lemma run_loop_completes (pairs : list (value * value)) :
  forall start scores feedbacks,
    (forall i p, nth_error pairs i = Some p ->
       run_body client task_prompt user_prompt (start + i) = Gives p) ->
    run_loop client task_prompt user_prompt (seq start (length pairs))
      scores feedbacks
    = Return ((scores ++ map fst pairs)%list, (feedbacks ++ map snd pairs)%list).
Proof.
  induction pairs as [| [s f] rest IH]; intros start scores feedbacks H; simpl.
  - rewrite !app_nil_r. reflexivity.
  - rewrite <- (Nat.add_0_r start) at 1.
    rewrite (H 0%nat (s, f) eq_refl).
    rewrite IH.
    + rewrite <- !app_assoc. reflexivity.
    + intros i p Hp. rewrite Nat.add_succ_comm. apply H. exact Hp.
Qed.

(** The first failing run ends the loop with its cause. *)
Lemma run_loop_fails (before after : list nat) (i : nat) (cause : string) :
  (forall j, In j before ->
     exists p, run_body client task_prompt user_prompt j = Gives p) ->
  run_body client task_prompt user_prompt i = Fails cause ->
  forall scores feedbacks,
    run_loop client task_prompt user_prompt (before ++ i :: after)
      scores feedbacks
    = Raise (mkExc Exception (error_prefix ++ cause)).
Proof.
  intros Hb Hi.
  induction before as [| j before IH]; intros scores feedbacks; simpl.
  - rewrite Hi. reflexivity.
  - destruct (Hb j (or_introl eq_refl)) as ([s f] & Hj). rewrite Hj.
    apply IH. intros k Hk. apply Hb. right. exact Hk.
Qed.

Lemma range_split (num_runs : Z) (i : nat) :
  Z.of_nat i < num_runs ->
  range num_runs = (seq 0 i ++ i :: seq (S i) (Z.to_nat num_runs - S i))%list.
Proof.
  intros Hi. unfold range.
  replace (Z.to_nat num_runs) with (i + S (Z.to_nat num_runs - S i))%nat at 1 by lia.
  rewrite seq_app. reflexivity.
Qed.

Lemma grade_submission_fails_at (num_runs : Z) (i : nat) (cause : string) :
  Z.of_nat i < num_runs ->
  (forall j, (j < i)%nat ->
     exists p, run_body client task_prompt user_prompt j = Gives p) ->
  run_body client task_prompt user_prompt i = Fails cause ->
  grade_submission client task_prompt user_prompt num_runs
  = Raise (mkExc Exception (error_prefix ++ cause)).
Proof.
  intros Hi Hb Hf. unfold grade_submission.
  rewrite (range_split num_runs i Hi).
  rewrite (run_loop_fails (seq 0 i) _ i cause); [reflexivity | | exact Hf].
  intros j Hj. apply in_seq in Hj. apply Hb. lia.
Qed.


End RunLoop.

(** ** One run *)

Lemma run_body_execution_fails client task_prompt user_prompt run cause :
  execution client run task_prompt user_prompt = Fails cause ->
  run_body client task_prompt user_prompt run = Fails cause.
Proof. intros H. unfold run_body. rewrite H. reflexivity. Qed.

Lemma run_body_evaluation_fails client task_prompt user_prompt run output cause :
  execution client run task_prompt user_prompt = Gives (Some output) ->
  evaluation client run evaluator_system
    (evaluation_prompt task_prompt user_prompt output) = Fails cause ->
  run_body client task_prompt user_prompt run = Fails cause.
Proof. intros H1 H2. unfold run_body. rewrite H1. simpl. rewrite H2. reflexivity. Qed.

Lemma run_body_not_object client task_prompt user_prompt run output v :
  execution client run task_prompt user_prompt = Gives (Some output) ->
  evaluation client run evaluator_system
    (evaluation_prompt task_prompt user_prompt output) = Gives v ->
  (forall items, v <> VDict items) ->
  run_body client task_prompt user_prompt run
  = Fails ("'" ++ type_name v ++ "' object has no attribute 'get'").
Proof.
  intros H1 H2 Hv. unfold run_body. rewrite H1. simpl. rewrite H2.
  destruct v; try reflexivity. exfalso. apply (Hv items). reflexivity.
Qed.

Lemma run_body_object client task_prompt user_prompt run output items :
  execution client run task_prompt user_prompt = Gives (Some output) ->
  evaluation client run evaluator_system
    (evaluation_prompt task_prompt user_prompt output) = Gives (VDict items) ->
  run_body client task_prompt user_prompt run
  = Gives (match lookup "score" items with Some v => v | None => VInt 0 end,
           match lookup "feedback" items with Some v => v | None => VStr "" end).
Proof. intros H1 H2. unfold run_body. rewrite H1. simpl. rewrite H2. reflexivity. Qed.

(** ** Lists of run results *)







(** ** The loop of the batch pass *)

Lemma grade_one_iteration client p w :
  grade_one client p w
  = (tt, mkWorld (snd (iteration client p (db w)))
           (log w ++ fst (iteration client p (db w)))).
Proof.
  unfold grade_one, then_, execute_update, commit, call_grader, iteration,
    graded_by, settle.
  cbn [db log].
  destruct (grade_submission client (assignment_prompt p)
              (s_prompt_text (p_submission p)) default_num_runs);
    cbn [db log fst snd]; rewrite <- !app_assoc; reflexivity.
Qed.

Lemma grade_each_pass client rows :
  forall idx w,
    grade_each client idx rows w
    = (tt, mkWorld (snd (pass client idx rows (db w)))
             (log w ++ fst (pass client idx rows (db w)))).
Proof.
  induction rows as [| p rest IH]; intros idx w.
  - simpl. unfold pure. rewrite app_nil_r. destruct w; reflexivity.
  - cbn [grade_each pass]. unfold then_ at 1.
    rewrite grade_one_iteration. rewrite IH. cbn [db log].
    destruct (iteration (client idx) p (db w)) as [events d'].
    cbn [fst snd db log].
    destruct (pass client (S idx) rest d') as [later d''].
    cbn [fst snd]. rewrite app_assoc. reflexivity.
Qed.

Lemma background_pass client competition_id w :
  grade_all_submissions_background client competition_id w
  = (tt, mkWorld
           (snd (pass client 1 (select_pending competition_id (db w)) (db w)))
           (log w
            ++ fst (pass client 1 (select_pending competition_id (db w)) (db w)))).
Proof.
  unfold grade_all_submissions_background, then_, select.
  apply grade_each_pass.
Qed.

(** ** Rows *)

Lemma settle_id graded r : s_id (settle graded r) = s_id r.
Proof. destruct graded; reflexivity. Qed.

Lemma settle_terminal graded r : terminal (s_status (settle graded r)).
Proof. destruct graded; [right | left]; reflexivity. Qed.

Lemma submissions_update sid set d :
  submissions (update_where_id sid set d)
  = map (fun r => if s_id r =? sid then set r else r) (submissions d).
Proof. reflexivity. Qed.

Lemma iteration_submissions client p d :
  submissions (snd (iteration client p d))
  = map (fun r => if s_id r =? s_id (p_submission p)
                  then settle (graded_by client p) (set_grading r)
                  else r)
        (submissions d).
Proof.
  unfold iteration. cbn [snd]. rewrite !submissions_update, map_map.
  apply map_ext. intros r.
  destruct (Z.eqb_spec (s_id r) (s_id (p_submission p))) as [E | N].
  - cbn [set_grading s_id]. rewrite E, Z.eqb_refl. reflexivity.
  - destruct (Z.eqb_spec (s_id r) (s_id (p_submission p))); [contradiction |].
    reflexivity.
Qed.

Lemma pass_submissions client rows :
  forall idx d,
    submissions (snd (pass client idx rows d))
    = map (row_pass client idx rows) (submissions d).
Proof.
  induction rows as [| p rest IH]; intros idx d.
  - simpl. rewrite map_id. reflexivity.
  - cbn [pass].
    pose proof (iteration_submissions (client idx) p d) as Hi.
    destruct (iteration (client idx) p d) as [events d'].
    specialize (IH (S idx) d').
    destruct (pass client (S idx) rest d') as [later d''].
    cbn [snd] in *. rewrite IH, Hi, map_map. reflexivity.
Qed.

Lemma row_pass_id client rows :
  forall idx r, s_id (row_pass client idx rows r) = s_id r.
Proof.
  induction rows as [| p rest IH]; intros idx r; simpl; [reflexivity |].
  rewrite IH. destruct (s_id r =? s_id (p_submission p)); [| reflexivity].
  rewrite settle_id. reflexivity.
Qed.

Lemma row_pass_untouched client rows :
  forall idx r,
    ~ In (s_id r) (map (fun p => s_id (p_submission p)) rows) ->
    row_pass client idx rows r = r.
Proof.
  induction rows as [| p rest IH]; intros idx r H; simpl; [reflexivity |].
  simpl in H.
  destruct (Z.eqb_spec (s_id r) (s_id (p_submission p))) as [E | N].
  - exfalso. apply H. left. symmetry. exact E.
  - apply IH. intros Hin. apply H. right. exact Hin.
Qed.

Lemma row_pass_keeps_terminal client rows :
  forall idx r,
    terminal (s_status r) -> terminal (s_status (row_pass client idx rows r)).
Proof.
  induction rows as [| p rest IH]; intros idx r H; simpl; [exact H |].
  apply IH. destruct (s_id r =? s_id (p_submission p)); [| exact H].
  apply settle_terminal.
Qed.

Lemma row_pass_terminal client rows :
  forall idx r,
    In (s_id r) (map (fun p => s_id (p_submission p)) rows) ->
    terminal (s_status (row_pass client idx rows r)).
Proof.
  induction rows as [| p rest IH]; intros idx r H; simpl in *; [contradiction |].
  destruct (Z.eqb_spec (s_id r) (s_id (p_submission p))) as [E | N].
  - apply row_pass_keeps_terminal, settle_terminal.
  - apply IH. destruct H as [H | H]; [congruence | exact H].
Qed.

Lemma row_pass_at client rows :
  forall idx k p r,
    NoDup (map (fun p => s_id (p_submission p)) rows) ->
    nth_error rows k = Some p ->
    s_id r = s_id (p_submission p) ->
    row_pass client idx rows r
    = settle (graded_by (client (idx + k)%nat) p) (set_grading r).
Proof.
  induction rows as [| q rest IH]; intros idx k p r Hnd Hk Hr.
  - destruct k; discriminate.
  - simpl in Hnd. apply NoDup_cons_iff in Hnd as [Hq Hnd].
    destruct k as [| k]; simpl in Hk.
    + injection Hk as ->. cbn [row_pass]. rewrite Hr, Z.eqb_refl.
      rewrite Nat.add_0_r. apply row_pass_untouched.
      rewrite settle_id. cbn [set_grading s_id]. rewrite Hr. exact Hq.
    + cbn [row_pass].
      destruct (Z.eqb_spec (s_id r) (s_id (p_submission q))) as [E | N].
      * exfalso. apply Hq. rewrite <- E, Hr.
        apply in_map_iff. exists p. split; [reflexivity |].
        eapply nth_error_In. exact Hk.
      * rewrite (IH (S idx) k p r Hnd Hk Hr).
        replace (S idx + k)%nat with (idx + S k)%nat by lia. reflexivity.
Qed.

(** ** The snapshot *)

Lemma select_pending_In competition_id d p :
  In p (select_pending competition_id d) ->
  In (p_submission p) (submissions d)
  /\ s_status (p_submission p) = pending
  /\ s_competition_id (p_submission p) = competition_id.
Proof.
  unfold select_pending. intros H.
  apply in_flat_map in H as (s & Hs & Hp).
  destruct (Z.eqb_spec (s_competition_id s) competition_id) as [Ec | Nc];
    [| contradiction].
  destruct (s_status s) eqn:Est; simpl in Hp; try contradiction.
  apply in_map_iff in Hp as (a & <- & _). simpl. auto.
Qed.

Lemma filter_key_unique (x : Z) (l : list assignment) :
  NoDup (map a_id l) ->
  (length (filter (fun a => (x =? a_id a)%Z) l) <= 1)%nat.
Proof.
  induction l as [| a l IH]; intros H; simpl; [lia |].
  simpl in H. apply NoDup_cons_iff in H as [Ha Hl].
  destruct (Z.eqb_spec x (a_id a)) as [E | N]; [| auto].
  rewrite (filter_ext_in _ (fun _ => false)), filter_false; [simpl; lia |].
  intros b Hb. apply Z.eqb_neq. intros E'. apply Ha.
  apply in_map_iff. exists b. split; [congruence | exact Hb].
Qed.

Lemma unique_row (l : list submission) (r r' : submission) :
  NoDup (map s_id l) -> In r l -> In r' l -> s_id r = s_id r' -> r = r'.
Proof.
  induction l as [| x l IH]; intros Hnd Hr Hr' E; [contradiction |].
  simpl in Hnd. apply NoDup_cons_iff in Hnd as [Hx Hnd].
  destruct Hr as [<- | Hr], Hr' as [<- | Hr'].
  - reflexivity.
  - exfalso. apply Hx. rewrite E. apply in_map. exact Hr'.
  - exfalso. apply Hx. rewrite <- E. apply in_map. exact Hr.
  - apply IH; assumption.
Qed.

Lemma select_pending_ids competition_id d s :
  In s (map (fun p => s_id (p_submission p)) (select_pending competition_id d)) ->
  In s (map s_id (submissions d)).
Proof.
  intros H. apply in_map_iff in H as (p & <- & Hp).
  apply select_pending_In in Hp as (Hin & _). apply in_map. exact Hin.
Qed.

Lemma select_pending_NoDup competition_id d :
  primary_keys d ->
  NoDup (map (fun p => s_id (p_submission p)) (select_pending competition_id d)).
Proof.
  intros [Hs Ha]. unfold select_pending.
  set (rows_of := fun s : submission =>
         if (s_competition_id s =? competition_id)
            && status_eqb (s_status s) pending
         then map (fun a => mkPending s (a_prompt a))
                (filter (fun a => s_assignment_id s =? a_id a) (assignments d))
         else []).
  assert (Hone : forall s,
            map (fun p => s_id (p_submission p)) (rows_of s) = []
            \/ map (fun p => s_id (p_submission p)) (rows_of s) = [s_id s]).
  { intros s. unfold rows_of.
    destruct ((s_competition_id s =? competition_id)
              && status_eqb (s_status s) pending); [| left; reflexivity].
    pose proof (filter_key_unique (s_assignment_id s) (assignments d) Ha) as L.
    destruct (filter (fun a => s_assignment_id s =? a_id a) (assignments d))
      as [| a [| b l]]; simpl in *; [left | right | lia]; reflexivity. }
  assert (Hsub : forall l x,
            In x (map (fun p => s_id (p_submission p)) (flat_map rows_of l)) ->
            In x (map s_id l)).
  { intros l x Hx. apply in_map_iff in Hx as (p & <- & Hp).
    apply in_flat_map in Hp as (s & Hs' & Hp).
    destruct (Hone s) as [E | E];
      apply (in_map (fun p => s_id (p_submission p))) in Hp;
      rewrite E in Hp; simpl in Hp; [contradiction |].
    destruct Hp as [<- | []]. apply in_map. exact Hs'. }
  induction (submissions d) as [| s l IH]; simpl; [constructor |].
  simpl in Hs. apply NoDup_cons_iff in Hs as [Hs Hl].
  rewrite map_app.
  destruct (Hone s) as [E | E]; rewrite E; simpl.
  - apply IH. exact Hl.
  - constructor; [| apply IH; exact Hl].
    intros Hin. apply Hs. apply Hsub. exact Hin.
Qed.

(** ** Row changes *)

Lemma row_step_id r r' : row_step r r' -> s_id r' = s_id r.
Proof. destruct 1; reflexivity. Qed.

Lemma row_le_id r r' : row_le r r' -> s_id r' = s_id r.
Proof.
  induction 1 as [| r1 r2 r3 _ IH Hs]; [reflexivity |].
  rewrite (row_step_id _ _ Hs). exact IH.
Qed.

Lemma row_le_trans r1 r2 r3 : row_le r1 r2 -> row_le r2 r3 -> row_le r1 r3.
Proof.
  intros H12 H23. induction H23 as [| a b c _ IH Hs]; [exact H12 |].
  eapply le_step; [apply IH; exact H12 | exact Hs].
Qed.

Lemma row_le_terminal r r' :
  row_le r r' -> terminal (s_status r) -> r' = r.
Proof.
  induction 1 as [| r1 r2 r3 _ IH Hs]; intros Ht; [reflexivity |].
  specialize (IH Ht). subst r2.
  destruct Ht as [Ht | Ht]; destruct Hs; congruence.
Qed.



(** ** Tables *)

Lemma Forall2_map_right {A : Type} (R : A -> A -> Prop) (f : A -> A) (l : list A) :
  (forall x, In x l -> R x (f x)) -> Forall2 R l (map f l).
Proof.
  induction l as [| x l IH]; intros H; simpl; constructor.
  - apply H. left. reflexivity.
  - apply IH. intros y Hy. apply H. right. exact Hy.
Qed.

Lemma Forall2_compose {A : Type} (R : A -> A -> Prop) :
  (forall x y z, R x y -> R y z -> R x z) ->
  forall l1 l2 l3, Forall2 R l1 l2 -> Forall2 R l2 l3 -> Forall2 R l1 l3.
Proof.
  intros Ht l1 l2 l3 H12. revert l3.
  induction H12 as [| x y l1 l2 Hxy _ IH]; intros l3 H23; inversion H23; subst;
    constructor.
  - eapply Ht; eassumption.
  - apply IH. assumption.
Qed.

Lemma Forall2_In_right {A : Type} (R : A -> A -> Prop) (l1 l2 : list A) (y : A) :
  Forall2 R l1 l2 -> In y l2 -> exists x, In x l1 /\ R x y.
Proof.
  induction 1 as [| a b l1 l2 Hab _ IH]; intros Hy; [contradiction |].
  destruct Hy as [<- | Hy].
  - exists a. split; [left; reflexivity | exact Hab].
  - destruct (IH Hy) as (x & Hx & Hr). exists x. split; [right |]; assumption.
Qed.

Lemma db_le_refl d : db_le d d.
Proof.
  unfold db_le. rewrite <- (map_id (submissions d)) at 2.
  apply Forall2_map_right. intros; apply le_refl.
Qed.

Lemma db_le_trans d1 d2 d3 : db_le d1 d2 -> db_le d2 d3 -> db_le d1 d3.
Proof. apply Forall2_compose. exact row_le_trans. Qed.

Lemma db_le_ids d d' : db_le d d' -> map s_id (submissions d') = map s_id (submissions d).
Proof.
  unfold db_le. induction 1 as [| r r' l l' Hr _ IH]; [reflexivity |].
  simpl. rewrite IH, (row_le_id _ _ Hr). reflexivity.
Qed.

(** ** Sequences of tables *)

Lemma last_default {A : Type} (l : list A) :
  forall a x y, last (a :: l) x = last (a :: l) y.
Proof.
  induction l as [| b l IH]; intros a x y; [reflexivity |].
  change (last (b :: l) x = last (b :: l) y). apply IH.
Qed.

Lemma last_app_default {A : Type} (l1 : list A) :
  forall l2 x, last (l1 ++ l2) x = last l2 (last l1 x).
Proof.
  induction l1 as [| a l1 IH]; intros l2 x; [reflexivity |].
  destruct l1 as [| b l1].
  - destruct l2 as [| c l2]; [reflexivity |].
    change (last (c :: l2) x = last (c :: l2) a). apply last_default.
  - change (last ((b :: l1) ++ l2) x = last l2 (last (b :: l1) x)). apply IH.
Qed.

Lemma chain_app {A : Type} (R : A -> A -> Prop) (l1 l2 : list A) :
  forall x, chain R x l1 -> chain R (last l1 x) l2 -> chain R x (l1 ++ l2).
Proof.
  induction l1 as [| y l1 IH]; intros x H1 H2; [exact H2 |].
  destruct H1 as [Hxy H1]. split; [exact Hxy |].
  apply IH; [exact H1 |].
  destruct l1 as [| a l1]; [exact H2 |].
  rewrite (last_default l1 a y x). exact H2.
Qed.

Lemma chain_suffix {A : Type} (R : A -> A -> Prop) (l1 l2 : list A) (y : A) :
  forall x, chain R x (l1 ++ y :: l2) -> chain R y l2.
Proof.
  induction l1 as [| z l1 IH]; intros x H.
  - exact (proj2 H).
  - apply (IH z). exact (proj2 H).
Qed.

Lemma chain_reach {A : Type} (R : A -> A -> Prop) :
  (forall x y z, R x y -> R y z -> R x z) ->
  forall l x y, chain R x l -> In y l -> R x y.
Proof.
  intros Ht. induction l as [| z l IH]; intros x y H Hy; [contradiction |].
  destruct H as [Hxz H]. destruct Hy as [<- | Hy]; [exact Hxz |].
  eapply Ht; [exact Hxz |]. apply IH; assumption.
Qed.

Lemma states_app e1 e2 : states (e1 ++ e2) = (states e1 ++ states e2)%list.
Proof. apply flat_map_app. Qed.

(** ** The trace of the pass *)

Lemma grade_submission_feedback client task_prompt user_prompt num_runs r :
  grade_submission client task_prompt user_prompt num_runs = Return r ->
  feedback r <> "".
Proof.
  unfold grade_submission. intros H.
  destruct (run_loop _ _ _ _ _ _) as [e | [scores feedbacks]];
    cbn [bind] in H; [discriminate |].
  destruct (Py.sum scores); cbn [bind] in H; [discriminate |].
  destruct (truediv _ _); cbn [bind] in H; [discriminate |].
  destruct (format_all_2f scores); cbn [bind] in H; [discriminate |].
  destruct (first feedbacks); cbn [bind] in H; [discriminate |].
  destruct (str_concat _ _); cbn [bind] in H; [discriminate |].
  injection H as <-. cbn [feedback append]. discriminate.
Qed.

Section Trace.
Variable client : nat -> oracle.

Lemma iteration_chain idx p d :
  (forall r, In r (submissions d) -> s_id r = s_id (p_submission p) ->
     s_status r = pending) ->
  chain db_le d (states (fst (iteration (client idx) p d))).
Proof.
  intros Hp. unfold iteration. cbn [fst states flat_map app].
  set (sid := s_id (p_submission p)).
  set (d1 := update_where_id sid set_grading d).
  assert (H1 : db_le d d1).
  { unfold db_le, d1. rewrite submissions_update.
    apply Forall2_map_right. intros r Hr.
    destruct (Z.eqb_spec (s_id r) sid) as [E | N]; [| apply le_refl].
    eapply le_step; [apply le_refl |]. apply step_begin. apply Hp; assumption. }
  assert (H2 : db_le d1 (update_where_id sid (settle (graded_by (client idx) p)) d1)).
  { unfold db_le. rewrite submissions_update.
    apply Forall2_map_right. intros r1 Hr1.
    destruct (Z.eqb_spec (s_id r1) sid) as [E | N]; [| apply le_refl].
    assert (Hg : s_status r1 = grading).
    { unfold d1 in Hr1. rewrite submissions_update in Hr1.
      apply in_map_iff in Hr1 as (r & <- & _).
      destruct (Z.eqb_spec (s_id r) sid) as [E' | N']; [reflexivity |].
      contradiction. }
    eapply le_step; [apply le_refl |].
    unfold graded_by, settle.
    destruct (grade_submission _ _ _ _) as [e | result] eqn:G.
    - apply step_error. exact Hg.
    - apply step_completed; [exact Hg |].
      eapply grade_submission_feedback. exact G. }
  repeat split; try assumption; apply db_le_refl.
Qed.

Lemma iteration_last idx p d :
  last (states (fst (iteration (client idx) p d))) d
  = snd (iteration (client idx) p d).
Proof. reflexivity. Qed.

Lemma iteration_keeps_pending idx p rest d :
  ~ In (s_id (p_submission p)) (map (fun q => s_id (p_submission q)) rest) ->
  still_pending (p :: rest) d ->
  still_pending rest (snd (iteration (client idx) p d)).
Proof.
  intros Hnot Hsp q r Hq Hr Hid.
  rewrite iteration_submissions in Hr.
  apply in_map_iff in Hr as (r0 & <- & Hr0).
  destruct (Z.eqb_spec (s_id r0) (s_id (p_submission p))) as [E | N].
  - exfalso. apply Hnot. rewrite settle_id in Hid. cbn [set_grading s_id] in Hid.
    rewrite <- E, Hid. apply in_map_iff. exists q. auto.
  - apply (Hsp q r0); [right; exact Hq | exact Hr0 | exact Hid].
Qed.

Lemma pass_chain rows :
  forall idx d,
    NoDup (map (fun p => s_id (p_submission p)) rows) ->
    still_pending rows d ->
    chain db_le d (states (fst (pass client idx rows d)))
    /\ last (states (fst (pass client idx rows d))) d
       = snd (pass client idx rows d).
Proof.
  induction rows as [| p rest IH]; intros idx d Hnd Hsp.
  - split; [exact I | reflexivity].
  - simpl in Hnd. apply NoDup_cons_iff in Hnd as [Hp Hnd].
    pose proof (iteration_chain idx p d) as Hc.
    pose proof (iteration_last idx p d) as Hl.
    pose proof (iteration_keeps_pending idx p rest d Hp Hsp) as Hk.
    cbn [pass].
    destruct (iteration (client idx) p d) as [events d'] eqn:Ei.
    destruct (IH (S idx) d' Hnd Hk) as [IHc IHl].
    destruct (pass client (S idx) rest d') as [later d''].
    cbn [fst snd] in *. rewrite states_app. split.
    + apply chain_app.
      * apply Hc. intros r Hr Hid. apply (Hsp p r); [left; reflexivity | |];
          assumption.
      * rewrite Hl. exact IHc.
    + rewrite last_app_default. rewrite Hl. exact IHl.
Qed.

End Trace.

(** ** Commits and grader calls *)

Lemma calls_follow_commit_any events :
  calls_follow_commit None events -> forall shown, calls_follow_commit shown events.
Proof.
  destruct events as [| [d | d | sid] rest]; intros H shown; try exact H.
  destruct H as [(d & Hd & _) _]. discriminate.
Qed.

Lemma iteration_ids client p d :
  map s_id (submissions (snd (iteration client p d))) = map s_id (submissions d).
Proof.
  rewrite iteration_submissions, map_map. apply map_ext. intros r.
  destruct (s_id r =? s_id (p_submission p)); [| reflexivity].
  rewrite settle_id. reflexivity.
Qed.

Lemma pass_calls_follow_commit client rows :
  forall idx d,
    (forall p, In p rows -> In (s_id (p_submission p)) (map s_id (submissions d))) ->
    calls_follow_commit None (fst (pass client idx rows d)).
Proof.
  induction rows as [| p rest IH]; intros idx d Hin; [exact I |].
  cbn [pass].
  pose proof (iteration_ids (client idx) p d) as Hids.
  unfold iteration in *. cbn [snd] in Hids.
  set (sid := s_id (p_submission p)) in *.
  set (d1 := update_where_id sid set_grading d) in *.
  set (d2 := update_where_id sid (settle (graded_by (client idx) p)) d1) in *.
  specialize (IH (S idx) d2).
  destruct (pass client (S idx) rest d2) as [later d''].
  cbn [fst app calls_follow_commit]. split.
  - exists d1. split; [reflexivity |]. split.
    + pose proof (Hin p (or_introl eq_refl)) as Hp.
      apply in_map_iff in Hp as (r & Hr & Hrin).
      exists (set_grading r). split; [| split; [exact Hr | reflexivity]].
      unfold d1. rewrite submissions_update. apply in_map_iff.
      exists r. split; [| exact Hrin].
      fold sid in Hr. rewrite Hr, Z.eqb_refl. reflexivity.
    + intros st (r1 & Hr1 & Hid & <-).
      unfold d1 in Hr1. rewrite submissions_update in Hr1.
      apply in_map_iff in Hr1 as (r & <- & _).
      destruct (Z.eqb_spec (s_id r) sid) as [E | N]; [reflexivity |].
      contradiction.
  - apply calls_follow_commit_any. apply IH.
    intros q Hq. rewrite Hids. apply Hin. right. exact Hq.
Qed.

Lemma calls_follow_commit_split before :
  forall shown sid after,
    calls_follow_commit shown (before ++ GraderCalled sid :: after) ->
    exists d,
      (before = [] /\ shown = Some d \/ exists earlier, before = (earlier ++ [Committed d])%list)
      /\ observed d sid grading
      /\ forall st, observed d sid st -> st = grading.
Proof.
  induction before as [| e before IH]; intros shown sid after H.
  - destruct H as [(d & Hd & Ho & Hall) _].
    exists d. split; [left; split; [reflexivity | exact Hd] |]. split; assumption.
  - assert (Hnext : exists shown', calls_follow_commit shown'
                      (before ++ GraderCalled sid :: after)
                    /\ forall d, shown' = Some d -> e = Committed d).
    { destruct e as [d | d | s]; simpl in H.
      - exists None. split; [exact H | discriminate].
      - exists (Some d). split; [exact H |]. intros d' [= <-]. reflexivity.
      - exists None. split; [exact (proj2 H) | discriminate]. }
    destruct Hnext as (shown' & Hc & Hs).
    destruct (IH shown' sid after Hc) as (d & [[-> Hd] | (earlier & ->)] & Ho).
    + exists d. split; [| exact Ho]. right. exists []. rewrite (Hs d Hd). reflexivity.
    + exists d. split; [| exact Ho]. right. exists (e :: earlier). reflexivity.
Qed.

(** ** The snapshot at the start of the pass *)

Lemma snapshot_still_pending competition_id d :
  primary_keys d -> still_pending (select_pending competition_id d) d.
Proof.
  intros [Hs _] p r Hp Hr Hid.
  apply select_pending_In in Hp as (Hin & Hst & _).
  rewrite (unique_row (submissions d) r (p_submission p) Hs Hr Hin Hid).
  exact Hst.
Qed.

(** * The grader *)

(** The scenario of three runs scored 80, 85 and 75. *)
Example three_runs_80_85_75 :
  grade_submission (steady [80; 85; 75]) task text 3
  = Return (mkResult 80 [VInt 80; VInt 85; VInt 75]
              ("평균 점수: 80.00점" ++ nl ++ nl
               ++ "각 실행별 점수: 80.00점, 85.00점, 75.00점" ++ nl ++ nl
               ++ "종합 피드백:" ++ nl ++ "clear and specific")).
Proof. reflexivity. Qed.



(** C2. If run [i] fails with cause [cause] (every earlier run having
    completed), [grade_submission] raises the exception that carries this
    cause and returns no aggregate; what the later runs would have done, and
    what the earlier runs collected, plays no role. *)
Theorem first_failure_aborts :
  forall client task_prompt user_prompt num_runs (i : nat) (cause : string),
    Z.of_nat i < num_runs ->
    (forall j, (j < i)%nat ->
       exists p, run_body client task_prompt user_prompt j = Gives p) ->
    run_body client task_prompt user_prompt i = Fails cause ->
    grade_submission client task_prompt user_prompt num_runs
    = Raise (mkExc Exception (error_prefix ++ cause))
    /\ (forall r,
          grade_submission client task_prompt user_prompt num_runs <> Return r)
    /\ (forall other,
          (forall j, (j < i)%nat ->
             exists p, run_body other task_prompt user_prompt j = Gives p) ->
          run_body other task_prompt user_prompt i = Fails cause ->
          grade_submission other task_prompt user_prompt num_runs
          = grade_submission client task_prompt user_prompt num_runs).
Proof.
  intros client task_prompt user_prompt num_runs i cause Hi Hb Hf.
  pose proof (grade_submission_fails_at client task_prompt user_prompt
                num_runs i cause Hi Hb Hf) as H.
  split; [exact H |]. split.
  - intros r. rewrite H. discriminate.
  - intros other Hb' Hf'. rewrite H.
    apply grade_submission_fails_at with (i := i); assumption.
Qed.

Lemma first_failure_aborts_witness :
  run_body rate_limited task text 1 = Fails "rate limit exceeded"
  /\ grade_submission rate_limited task text 3
     = Raise (mkExc Exception (error_prefix ++ "rate limit exceeded"))
  /\ (forall r, grade_submission rate_limited task text 3 <> Return r)
  /\ (forall other,
        (forall j, (j < 1)%nat ->
           exists p, run_body other task text j = Gives p) ->
        run_body other task text 1 = Fails "rate limit exceeded" ->
        grade_submission other task text 3
        = grade_submission rate_limited task text 3).
Proof.
  split; [reflexivity |].
  refine (first_failure_aborts rate_limited task text 3 1
            "rate limit exceeded" _ _ _).
  - lia.
  - intros j Hj. assert (j = 0%nat) as -> by lia. eexists. reflexivity.
  - reflexivity.
Defined.

Lemma run_loop_length client task_prompt user_prompt runs :
  forall scores feedbacks scores' feedbacks',
    run_loop client task_prompt user_prompt runs scores feedbacks
    = Return (scores', feedbacks') ->
    length scores' = (length scores + length runs)%nat.
Proof.
  induction runs as [| run rest IH]; intros scores feedbacks scores' feedbacks' H;
    simpl in H.
  - injection H as <- _. simpl. lia.
  - destruct (run_body client task_prompt user_prompt run) as [c | [s f]];
      [discriminate |].
    apply IH in H. rewrite H, length_app. simpl. lia.
Qed.

Lemma run_loop_raises client task_prompt user_prompt runs :
  forall scores feedbacks e,
    run_loop client task_prompt user_prompt runs scores feedbacks = Raise e ->
    exc_type e = Exception.
Proof.
  induction runs as [| run rest IH]; intros scores feedbacks e H; simpl in H;
    [discriminate |].
  destruct (run_body client task_prompt user_prompt run) as [c | [s f]].
  - injection H as <-. reflexivity.
  - eapply IH. exact H.
Qed.

Lemma sum_from_raises values :
  forall acc e, sum_from acc values = Raise e -> exc_type e = TypeError.
Proof.
  induction values as [| v rest IH]; intros acc e H; simpl in H; [discriminate |].
  destruct (as_num v).
  - eapply IH. exact H.
  - injection H as <-. reflexivity.
Qed.

Lemma format_all_2f_raises values :
  forall e, format_all_2f values = Raise e -> exc_type e <> ZeroDivisionError.
Proof.
  induction values as [| v rest IH]; intros e H; simpl in H; [discriminate |].
  destruct (format_value_2f v) as [e' | s] eqn:F; cbn [bind] in H.
  - injection H as <-. unfold format_value_2f in F.
    destruct v; simpl in F; try discriminate; injection F as <-; discriminate.
  - destruct (format_all_2f rest) as [e' | ss]; cbn [bind] in H; [| discriminate].
    injection H as <-. apply IH. reflexivity.
Qed.

(** With at least one run the division cannot fail. *)
Lemma division_error_needs_no_runs client task_prompt user_prompt num_runs e :
  1 <= num_runs ->
  grade_submission client task_prompt user_prompt num_runs = Raise e ->
  exc_type e <> ZeroDivisionError.
Proof.
  intros H. unfold grade_submission.
  destruct (run_loop _ _ _ _ _ _) as [e1 | [scores feedbacks]] eqn:L;
    cbn [bind].
  { intros [= <-]. rewrite (run_loop_raises _ _ _ _ _ _ _ L). discriminate. }
  apply run_loop_length in L. unfold range in L. rewrite length_seq in L.
  simpl in L.
  destruct (Py.sum scores) as [e1 | total] eqn:S; cbn [bind].
  { intros [= <-]. rewrite (sum_from_raises _ _ _ S). discriminate. }
  unfold truediv.
  destruct (Z.eqb_spec (Z.of_nat (length scores)) 0) as [E | _]; [lia |].
  cbn [bind].
  destruct (format_all_2f scores) as [e1 | each] eqn:F; cbn [bind].
  { intros [= <-]. apply (format_all_2f_raises _ _ F). }
  destruct feedbacks as [| f0 rest]; cbn [first bind].
  { intros [= <-]. discriminate. }
  destruct f0; cbn [str_concat bind]; intros [= <-]; discriminate.
Qed.

(** C10. With [num_runs <= 0] the loop body never runs and the division by
    the length of the empty score list raises [ZeroDivisionError]: the call
    returns no aggregate and does not raise the grader's own failure. *)
Theorem no_runs_divides_by_zero :
  forall client task_prompt user_prompt num_runs,
    num_runs <= 0 ->
    grade_submission client task_prompt user_prompt num_runs
    = Raise (mkExc ZeroDivisionError "division by zero")
    /\ (forall r,
          grade_submission client task_prompt user_prompt num_runs <> Return r)
    /\ (forall cause,
          grade_submission client task_prompt user_prompt num_runs
          <> Raise (mkExc Exception (error_prefix ++ cause))).
Proof.
  intros client task_prompt user_prompt num_runs H.
  assert (E : grade_submission client task_prompt user_prompt num_runs
              = Raise (mkExc ZeroDivisionError "division by zero")).
  { unfold grade_submission, range.
    replace (Z.to_nat num_runs) with 0%nat by lia. reflexivity. }
  rewrite E. repeat split; intros; discriminate.
Qed.

Lemma no_runs_divides_by_zero_witness :
  0 <= 0
  /\ grade_submission (steady [80; 85; 75]) task text 0
     = Raise (mkExc ZeroDivisionError "division by zero")
  /\ (forall r, grade_submission (steady [80; 85; 75]) task text 0 <> Return r)
  /\ (forall cause,
        grade_submission (steady [80; 85; 75]) task text 0
        <> Raise (mkExc Exception (error_prefix ++ cause))).
Proof.
  split; [lia |].
  refine (no_runs_divides_by_zero (steady [80; 85; 75]) task text 0 _). lia.
Defined.

(** C4, as stated, fails: the empty JSON object is not the required record,
    yet the run succeeds with score 0 and grading returns an average. *)
Lemma empty_object_is_scored :
  well_formed_record (VDict []) = false
  /\ evaluation empty_object 0 evaluator_system
       (evaluation_prompt task text "A one-sentence summary.")
     = Gives (VDict [])
  /\ run_body empty_object task text 0 = Gives (VInt 0, VStr "")
  /\ exists r,
       grade_submission empty_object task text 3 = Return r
       /\ average_score r = 0%Q
       /\ detailed_scores r = [VInt 0; VInt 0; VInt 0].
Proof.
  repeat split. eexists. repeat split.
Qed.

(** C4, amended. After a successful execution call: if the evaluator call or
    the decoding of its answer raises, or the decoded value is not an
    object, the run fails with that cause, and so does the grading; if the
    decoded value is an object, the run succeeds with its [score] item
    (0 when absent) and its [feedback] item (the empty string when absent),
    whatever else the object holds. *)
Theorem evaluator_reply_handling :
  forall client task_prompt user_prompt (run : nat) (output : string),
    execution client run task_prompt user_prompt = Gives (Some output) ->
    let reply := evaluation client run evaluator_system
                   (evaluation_prompt task_prompt user_prompt output) in
    (forall cause, reply = Fails cause ->
       run_body client task_prompt user_prompt run = Fails cause)
    /\ (forall v, reply = Gives v -> (forall items, v <> VDict items) ->
          run_body client task_prompt user_prompt run
          = Fails ("'" ++ type_name v ++ "' object has no attribute 'get'"))
    /\ (forall items, reply = Gives (VDict items) ->
          run_body client task_prompt user_prompt run
          = Gives (match lookup "score" items with
                   | Some v => v
                   | None => VInt 0
                   end,
                   match lookup "feedback" items with
                   | Some v => v
                   | None => VStr ""
                   end))
    /\ (forall cause num_runs,
          run_body client task_prompt user_prompt run = Fails cause ->
          Z.of_nat run < num_runs ->
          (forall j, (j < run)%nat ->
             exists p, run_body client task_prompt user_prompt j = Gives p) ->
          grade_submission client task_prompt user_prompt num_runs
          = Raise (mkExc Exception (error_prefix ++ cause))).
Proof.
  intros client task_prompt user_prompt run output Hex reply.
  split; [| split; [| split]].
  - intros cause H. eapply run_body_evaluation_fails; eassumption.
  - intros v H Hv. eapply run_body_not_object; eassumption.
  - intros items H. eapply run_body_object; eassumption.
  - intros cause num_runs Hf Hlt Hb.
    eapply grade_submission_fails_at; eassumption.
Qed.

Lemma evaluator_reply_handling_witness :
  execution undecodable 0 task text = Gives (Some "A one-sentence summary.")
  /\ run_body undecodable task text 0
     = Fails "Expecting value: line 1 column 1 (char 0)".
Proof.
  split; [reflexivity |].
  refine (proj1 (evaluator_reply_handling undecodable task text 0
                   "A one-sentence summary." _) _ _); reflexivity.
Defined.




(** * The batch pass *)

(** C6. Every submission of the snapshot is in the store after the pass,
    and its status there is [completed] or [error], whatever the grader did
    for it or for the others. *)
Theorem pass_leaves_snapshot_terminal :
  forall client competition_id w p,
    In p (select_pending competition_id (db w)) ->
    let after :=
      db (snd (grade_all_submissions_background client competition_id w)) in
    (exists st, observed after (s_id (p_submission p)) st)
    /\ (forall st, observed after (s_id (p_submission p)) st -> terminal st).
Proof.
  intros client competition_id w p Hp after.
  assert (Hsub : submissions after
                 = map (row_pass client 1
                          (select_pending competition_id (db w)))
                       (submissions (db w))).
  { unfold after. rewrite background_pass. cbn [snd db].
    apply pass_submissions. }
  assert (Hid : In (s_id (p_submission p))
                  (map (fun q => s_id (p_submission q))
                     (select_pending competition_id (db w)))).
  { apply in_map_iff. exists p. split; [reflexivity | exact Hp]. }
  split.
  - apply select_pending_In in Hp as (Hin & _).
    exists (s_status (row_pass client 1 (select_pending competition_id (db w))
                        (p_submission p))).
    eexists. split; [rewrite Hsub; apply in_map; exact Hin |].
    split; [apply row_pass_id | reflexivity].
  - intros st (r & Hr & Hrid & <-).
    rewrite Hsub in Hr. apply in_map_iff in Hr as (r0 & <- & _).
    apply row_pass_terminal. rewrite row_pass_id in Hrid. rewrite Hrid.
    exact Hid.
Qed.

Lemma pass_leaves_snapshot_terminal_witness :
  In (mkPending (fresh 2 7) task) (select_pending 1 two_pending)
  /\ (exists st,
        observed
          (db (snd (grade_all_submissions_background first_only 1
                      (mkWorld two_pending []))))
          2 st)
  /\ (forall st,
        observed
          (db (snd (grade_all_submissions_background first_only 1
                      (mkWorld two_pending []))))
          2 st ->
        terminal st).
Proof.
  assert (H : In (mkPending (fresh 2 7) task) (select_pending 1 two_pending)).
  { simpl. right. left. reflexivity. }
  split; [exact H |].
  exact (pass_leaves_snapshot_terminal first_only 1 (mkWorld two_pending [])
           (mkPending (fresh 2 7) task) H).
Defined.

Lemma nothing_pending_snapshot competition_id d :
  count_pending competition_id d = 0 -> select_pending competition_id d = [].
Proof.
  unfold count_pending, select_pending. intros H.
  induction (submissions d) as [| s l IH]; [reflexivity |].
  simpl in *.
  destruct ((s_competition_id s =? competition_id)
            && status_eqb (s_status s) pending).
  - simpl in H. lia.
  - apply IH. exact H.
Qed.

(** C7. For an existing competition without pending submissions,
    [start_grading] answers that there is nothing to grade, schedules no
    background task and leaves the tables and the log of the connection as
    they were; a pass run on such a competition changes nothing either. *)
Theorem nothing_pending_is_noop :
  forall client competition_id background_tasks w,
    select_competition competition_id (db w) <> None ->
    count_pending competition_id (db w) = 0 ->
    start_grading competition_id background_tasks w
    = ((Return (mkResponse "No pending submissions to grade"),
        background_tasks), w)
    /\ grade_all_submissions_background client competition_id w = (tt, w).
Proof.
  intros client competition_id background_tasks w Hc H0. split.
  - unfold start_grading, then_, select, pure.
    destruct (select_competition competition_id (db w)); [| contradiction].
    rewrite H0. reflexivity.
  - unfold grade_all_submissions_background, then_, select.
    rewrite (nothing_pending_snapshot _ _ H0). reflexivity.
Qed.

Lemma nothing_pending_is_noop_witness :
  count_pending 1 none_pending = 0
  /\ start_grading 1 [] (mkWorld none_pending [])
     = ((Return (mkResponse "No pending submissions to grade"), []),
        mkWorld none_pending [])
  /\ grade_all_submissions_background first_only 1 (mkWorld none_pending [])
     = (tt, mkWorld none_pending []).
Proof.
  split; [reflexivity |].
  refine (nothing_pending_is_noop first_only 1 [] (mkWorld none_pending []) _ _).
  - discriminate.
  - reflexivity.
Defined.

(** The tables of the pass, in order, starting from those it found. *)
Lemma pass_states_ordered client competition_id d :
  primary_keys d ->
  chain db_le d
    (states (fst (pass client 1 (select_pending competition_id d) d)))
  /\ last (states (fst (pass client 1 (select_pending competition_id d) d))) d
     = snd (pass client 1 (select_pending competition_id d) d).
Proof.
  intros Hpk. apply pass_chain.
  - apply select_pending_NoDup. exact Hpk.
  - apply snapshot_still_pending. exact Hpk.
Qed.

Lemma later_state_above (d0 : database) (l : list database) :
  chain db_le d0 l ->
  forall l1 d l2 d' l3,
    d0 :: l = (l1 ++ d :: l2 ++ d' :: l3)%list ->
    db_le d0 d /\ db_le d d'.
Proof.
  intros Hc l1 d l2 d' l3 E.
  assert (Hreach : forall x y m, chain db_le x m -> In y m -> db_le x y).
  { intros x y m. apply chain_reach. exact db_le_trans. }
  destruct l1 as [| x l1]; simpl in E; injection E as <- ->.
  - split; [apply db_le_refl |].
    apply (Hreach _ _ _ Hc). apply in_or_app. right. left. reflexivity.
  - split.
    + apply (Hreach _ _ _ Hc). apply in_or_app. right. left. reflexivity.
    + apply chain_suffix in Hc. apply (Hreach _ _ _ Hc).
      apply in_or_app. right. left. reflexivity.
Qed.

(** C8. During a pass over tables that respect their primary keys: each call
    of the grader comes immediately after a commit that shows the submission
    as [grading] (and as nothing else); and a submission that has been seen
    as [completed] or [error], at the start or in any later state of the
    tables, shows the same status in every state after that one. *)
Theorem transitions_ordered_and_monotonic :
  forall client competition_id w,
    primary_keys (db w) ->
    exists events,
      log (snd (grade_all_submissions_background client competition_id w))
      = (log w ++ events)%list
      /\ (forall before submission_id after,
            events = (before ++ GraderCalled submission_id :: after)%list ->
            exists earlier d,
              before = (earlier ++ [Committed d])%list
              /\ observed d submission_id grading
              /\ forall st, observed d submission_id st -> st = grading)
      /\ (forall l1 d l2 d' l3 submission_id st st',
            db w :: states events = (l1 ++ d :: l2 ++ d' :: l3)%list ->
            observed d submission_id st -> terminal st ->
            observed d' submission_id st' -> st' = st).
Proof.
  intros client competition_id w Hpk.
  exists (fst (pass client 1 (select_pending competition_id (db w)) (db w))).
  split; [rewrite background_pass; reflexivity |]. split.
  - intros before sid after E.
    pose proof (pass_calls_follow_commit client
                  (select_pending competition_id (db w)) 1 (db w)) as Hc.
    rewrite E in Hc.
    destruct (calls_follow_commit_split before None sid after) as (d & Hd & Ho).
    { apply Hc. intros p Hp. apply select_pending_ids with competition_id.
      apply in_map_iff. exists p. split; [reflexivity | exact Hp]. }
    destruct Hd as [[_ Hd] | (earlier & ->)]; [discriminate |].
    exists earlier, d. split; [reflexivity | exact Ho].
  - intros l1 d l2 d' l3 sid st st' E (r0 & Hr0 & Hid0 & Hst0) Ht
      (r' & Hr' & Hid' & Hst').
    destruct (pass_states_ordered client competition_id (db w) Hpk) as [Hc _].
    destruct (later_state_above _ _ Hc _ _ _ _ _ E) as [H0d Hdd'].
    destruct (Forall2_In_right _ _ _ _ Hdd' Hr') as (r & Hr & Hle).
    assert (r = r0) as ->.
    { apply (unique_row (submissions d)); try assumption.
      - rewrite (db_le_ids _ _ H0d). exact (proj1 Hpk).
      - rewrite <- (row_le_id _ _ Hle). congruence. }
    rewrite <- Hst0 in Ht.
    rewrite (row_le_terminal _ _ Hle Ht) in Hst'. congruence.
Qed.

Lemma transitions_ordered_and_monotonic_witness :
  primary_keys two_pending
  /\ exists events,
       log (snd (grade_all_submissions_background first_only 1
                   (mkWorld two_pending [])))
       = ([] ++ events)%list
       /\ (forall before submission_id after,
             events = (before ++ GraderCalled submission_id :: after)%list ->
             exists earlier d,
               before = (earlier ++ [Committed d])%list
               /\ observed d submission_id grading
               /\ forall st, observed d submission_id st -> st = grading)
       /\ (forall l1 d l2 d' l3 submission_id st st',
             two_pending :: states events = (l1 ++ d :: l2 ++ d' :: l3)%list ->
             observed d submission_id st -> terminal st ->
             observed d' submission_id st' -> st' = st).
Proof.
  assert (H : primary_keys two_pending).
  { keys_by_inspection. }
  split; [exact H |].
  exact (transitions_ordered_and_monotonic first_only 1
           (mkWorld two_pending []) H).
Defined.




(** C3, as stated, fails: when the second of three runs is refused with
    "rate limit exceeded", the stored feedback is not "Grading failed: rate
    limit exceeded"; it also holds the prefix the grader puts before the
    cause. *)
Lemma rate_limit_feedback_is_wrapped :
  run_body rate_limited task text 1 = Fails "rate limit exceeded"
  /\ submissions
       (db (snd (grade_all_submissions_background (fun _ => rate_limited) 1
                   (mkWorld one_pending []))))
     = [mkSubmission 1 1 1 7 text error None
          (Some "Grading failed: 프롬프트 실행 실패: rate limit exceeded") None]
  /\ Some "Grading failed: 프롬프트 실행 실패: rate limit exceeded"
     <> Some ("Grading failed: " ++ "rate limit exceeded").
Proof.
  split; [reflexivity |]. split; [reflexivity |]. discriminate.
Qed.

(** C3, amended. If a run of the grading of a snapshot submission fails with
    cause [cause] (the earlier runs having completed), then after the pass
    the submission has status [error], its feedback is "Grading failed: "
    followed by the grader's message, that is its prefix and [cause], and
    its score and grading detail are what they were before the pass. *)
Theorem failed_run_is_persisted_as_error :
  forall client competition_id w (k : nat) p (i : nat) (cause : string),
    primary_keys (db w) ->
    nth_error (select_pending competition_id (db w)) k = Some p ->
    Z.of_nat i < default_num_runs ->
    (forall j, (j < i)%nat ->
       exists q,
         run_body (client (S k)) (assignment_prompt p)
           (s_prompt_text (p_submission p)) j = Gives q) ->
    run_body (client (S k)) (assignment_prompt p)
      (s_prompt_text (p_submission p)) i = Fails cause ->
    let after :=
      db (snd (grade_all_submissions_background client competition_id w)) in
    (exists r, In r (submissions after) /\ s_id r = s_id (p_submission p))
    /\ forall r,
         In r (submissions after) -> s_id r = s_id (p_submission p) ->
         s_status r = error
         /\ s_feedback r = Some ("Grading failed: " ++ error_prefix ++ cause)
         /\ s_score r = s_score (p_submission p)
         /\ s_grading_details r = s_grading_details (p_submission p).
Proof.
  intros client competition_id w k p i cause Hpk Hk Hi Hb Hf after.
  assert (Hsub : submissions after
                 = map (row_pass client 1
                          (select_pending competition_id (db w)))
                       (submissions (db w))).
  { unfold after. rewrite background_pass. cbn [snd db].
    apply pass_submissions. }
  assert (Hp : In p (select_pending competition_id (db w)))
    by (eapply nth_error_In; exact Hk).
  apply select_pending_In in Hp as (Hpin & _).
  split.
  - eexists. split; [rewrite Hsub; apply in_map; exact Hpin |].
    apply row_pass_id.
  - intros r Hr Hid. rewrite Hsub in Hr.
    apply in_map_iff in Hr as (r0 & <- & Hr0).
    rewrite row_pass_id in Hid.
    assert (r0 = p_submission p) as ->
      by (apply (unique_row (submissions (db w))); try assumption;
          exact (proj1 Hpk)).
    rewrite (row_pass_at client _ 1 k p (p_submission p)
               (select_pending_NoDup competition_id (db w) Hpk) Hk eq_refl).
    unfold graded_by.
    rewrite (grade_submission_fails_at (client (1 + k)%nat) _ _ _ i cause
               Hi Hb Hf).
    repeat split.
Qed.

Lemma failed_run_is_persisted_as_error_witness :
  primary_keys one_pending
  /\ (exists r,
        In r (submissions
                (db (snd (grade_all_submissions_background
                            (fun _ => rate_limited) 1
                            (mkWorld one_pending [])))))
        /\ s_id r = 1)
  /\ forall r,
       In r (submissions
               (db (snd (grade_all_submissions_background
                           (fun _ => rate_limited) 1
                           (mkWorld one_pending []))))) ->
       s_id r = 1 ->
       s_status r = error
       /\ s_feedback r
          = Some ("Grading failed: " ++ error_prefix ++ "rate limit exceeded")
       /\ s_score r = None
       /\ s_grading_details r = None.
Proof.
  assert (H : primary_keys one_pending).
  { keys_by_inspection. }
  split; [exact H |].
  refine (failed_run_is_persisted_as_error (fun _ => rate_limited) 1
            (mkWorld one_pending []) 0 (mkPending (fresh 1 7) task) 1
            "rate limit exceeded" H eq_refl _ _ _).
  - reflexivity.
  - intros j Hj. assert (j = 0%nat) as -> by lia. eexists. reflexivity.
  - reflexivity.
Defined.

(** * Further properties *)

Import MoreSamples Store Progress Leaderboard Report Upload.

(** * More on the grader *)














Lemma first_of_head (l1 l2 : list value) :
  nth_error l1 0 = nth_error l2 0 -> first l1 = first l2.
Proof.
  destruct l1, l2; simpl; intros H; try discriminate; [reflexivity |].
  injection H as ->. reflexivity.
Qed.

(** X5. Of the feedback texts only the one of the first run reaches the
    result: two services whose runs all complete with the same scores and the
    same first feedback give the same outcome, whatever the later runs say. *)
Theorem only_first_feedback_is_used :
  forall client1 client2 task_prompt user_prompt num_runs
         (pairs1 pairs2 : list (value * value)),
    length pairs1 = Z.to_nat num_runs ->
    length pairs2 = Z.to_nat num_runs ->
    (forall i p, nth_error pairs1 i = Some p ->
       run_body client1 task_prompt user_prompt i = Gives p) ->
    (forall i p, nth_error pairs2 i = Some p ->
       run_body client2 task_prompt user_prompt i = Gives p) ->
    map fst pairs1 = map fst pairs2 ->
    nth_error (map snd pairs1) 0 = nth_error (map snd pairs2) 0 ->
    grade_submission client1 task_prompt user_prompt num_runs
    = grade_submission client2 task_prompt user_prompt num_runs.
Proof.
  intros client1 client2 task_prompt user_prompt num_runs pairs1 pairs2
    Hlen1 Hlen2 Hruns1 Hruns2 Hscores Hfirst.
  unfold grade_submission, range. rewrite <- Hlen1 at 1. rewrite <- Hlen2.
  rewrite (run_loop_completes client1 task_prompt user_prompt pairs1 0 [] [])
    by exact Hruns1.
  rewrite (run_loop_completes client2 task_prompt user_prompt pairs2 0 [] [])
    by exact Hruns2.
  simpl app. cbn [bind]. rewrite Hscores, (first_of_head _ _ Hfirst).
  reflexivity.
Qed.

Lemma only_first_feedback_is_used_witness :
  grade_submission (steady [80; 85; 75]) task text 3
  = grade_submission (talkative [80; 85; 75]) task text 3.
Proof.
  refine (only_first_feedback_is_used (steady [80; 85; 75])
            (talkative [80; 85; 75]) task text 3
            [(VInt 80, VStr "clear and specific");
             (VInt 85, VStr "clear and specific");
             (VInt 75, VStr "clear and specific")]
            [(VInt 80, VStr "clear and specific");
             (VInt 85, VStr "could be shorter");
             (VInt 75, VStr "could be shorter")] _ _ _ _ _ _);
    try reflexivity;
    intros [| [| [| i]]] p Hp; simpl in Hp; try (destruct i; discriminate);
    injection Hp as <-; reflexivity.
Defined.





(** * More on the batch pass *)

Lemma settle_static graded r :
  static_columns (settle graded (set_grading r)) = static_columns r.
Proof. destruct graded; reflexivity. Qed.

Lemma row_pass_static client rows :
  forall idx r, static_columns (row_pass client idx rows r) = static_columns r.
Proof.
  induction rows as [| p rest IH]; intros idx r; simpl; [reflexivity |].
  rewrite IH. destruct (s_id r =? s_id (p_submission p)); [| reflexivity].
  apply settle_static.
Qed.

Lemma pass_other_tables client rows :
  forall idx d,
    competitions (snd (pass client idx rows d)) = competitions d
    /\ assignments (snd (pass client idx rows d)) = assignments d.
Proof.
  induction rows as [| p rest IH]; intros idx d; [split; reflexivity |].
  cbn [pass].
  destruct (iteration (client idx) p d) as [events d'] eqn:E.
  assert (Hd' : competitions d' = competitions d /\ assignments d' = assignments d).
  { unfold iteration in E. injection E as _ <-. split; reflexivity. }
  specialize (IH (S idx) d').
  destruct (pass client (S idx) rest d') as [later d''].
  cbn [snd] in *. destruct IH as [-> ->]. exact Hd'.
Qed.

(** X7. A pass writes nothing but the status, score, feedback and grading
    detail of submissions: the competitions and assignments tables, the
    number and order of the submission rows and their other columns are as
    before, so the primary keys stay valid. *)
Theorem pass_writes_result_columns_only :
  forall client competition_id w,
    let after :=
      db (snd (grade_all_submissions_background client competition_id w)) in
    competitions after = competitions (db w)
    /\ assignments after = assignments (db w)
    /\ map static_columns (submissions after)
       = map static_columns (submissions (db w))
    /\ (primary_keys (db w) -> primary_keys after).
Proof.
  intros client competition_id w after. unfold after.
  rewrite background_pass. cbn [snd db].
  destruct (pass_other_tables client (select_pending competition_id (db w)) 1
              (db w)) as [Hc Ha].
  assert (Hs : map static_columns
                 (submissions
                    (snd (pass client 1 (select_pending competition_id (db w))
                            (db w))))
               = map static_columns (submissions (db w))).
  { rewrite pass_submissions, map_map. apply map_ext. intros r.
    apply row_pass_static. }
  split; [exact Hc |]. split; [exact Ha |]. split; [exact Hs |].
  intros [Hk1 Hk2]. split.
  - rewrite pass_submissions, map_map.
    erewrite map_ext; [exact Hk1 |]. intros r. apply row_pass_id.
  - rewrite Ha. exact Hk2.
Qed.

Lemma select_pending_assignment competition_id d p :
  In p (select_pending competition_id d) ->
  exists a, In a (assignments d)
            /\ a_id a = s_assignment_id (p_submission p)
            /\ assignment_prompt p = a_prompt a.
Proof.
  unfold select_pending. intros H.
  apply in_flat_map in H as (s & _ & Hp).
  destruct ((s_competition_id s =? competition_id)
            && status_eqb (s_status s) pending); [| contradiction].
  apply in_map_iff in Hp as (a & <- & Ha).
  apply filter_In in Ha as [Ha E]. apply Z.eqb_eq in E.
  exists a. simpl. auto.
Qed.

Lemma select_pending_intro competition_id d s a :
  In s (submissions d) ->
  s_competition_id s = competition_id ->
  s_status s = pending ->
  In a (assignments d) ->
  s_assignment_id s = a_id a ->
  In (mkPending s (a_prompt a)) (select_pending competition_id d).
Proof.
  intros Hs Hc Hst Ha E. unfold select_pending.
  apply in_flat_map. exists s. split; [exact Hs |].
  rewrite Hc, Z.eqb_refl, Hst. simpl.
  apply (in_map (fun a0 => mkPending s (a_prompt a0))).
  apply filter_In. split; [exact Ha |].
  apply Z.eqb_eq. exact E.
Qed.

(** Under the primary keys, the rows of the snapshot are the rows whose id
    is a snapshot id. *)
Lemma snapshot_id_row competition_id d r :
  primary_keys d ->
  In r (submissions d) ->
  In (s_id r) (map (fun p => s_id (p_submission p))
                 (select_pending competition_id d)) ->
  s_competition_id r = competition_id
  /\ s_status r = pending
  /\ exists a, In a (assignments d) /\ a_id a = s_assignment_id r.
Proof.
  intros [Hk _] Hr Hin. apply in_map_iff in Hin as (p & Hid & Hp).
  destruct (select_pending_assignment _ _ _ Hp) as (a & Ha & Ea & _).
  apply select_pending_In in Hp as (Hpin & Hst & Hc).
  rewrite (unique_row (submissions d) r (p_submission p) Hk Hr Hpin)
    by (symmetry; exact Hid).
  split; [exact Hc |]. split; [exact Hst |]. exists a. auto.
Qed.

(** X8. Under the primary keys, a pass does not modify a submission that
    belongs to another competition or is not [pending] when the pass
    starts. *)
Theorem pass_leaves_other_rows :
  forall client competition_id w r,
    primary_keys (db w) ->
    In r (submissions (db w)) ->
    s_competition_id r <> competition_id \/ s_status r <> pending ->
    let after :=
      db (snd (grade_all_submissions_background client competition_id w)) in
    In r (submissions after)
    /\ forall r', In r' (submissions after) -> s_id r' = s_id r -> r' = r.
Proof.
  intros client competition_id w r Hpk Hr Hother after.
  assert (Hsub : submissions after
                 = map (row_pass client 1
                          (select_pending competition_id (db w)))
                       (submissions (db w))).
  { unfold after. rewrite background_pass. cbn [snd db].
    apply pass_submissions. }
  assert (Hkeep : row_pass client 1 (select_pending competition_id (db w)) r = r).
  { apply row_pass_untouched. intros Hin.
    destruct (snapshot_id_row _ _ _ Hpk Hr Hin) as (Hc & Hst & _).
    destruct Hother; contradiction. }
  split.
  - rewrite Hsub, <- Hkeep. apply in_map. exact Hr.
  - intros r' Hr' Hid. rewrite Hsub in Hr'.
    apply in_map_iff in Hr' as (r0 & <- & Hr0).
    rewrite row_pass_id in Hid.
    rewrite (unique_row (submissions (db w)) r0 r (proj1 Hpk) Hr0 Hr Hid).
    exact Hkeep.
Qed.

Lemma pass_writes_result_columns_only_witness :
  let after :=
    db (snd (grade_all_submissions_background first_only 1
               (mkWorld two_pending []))) in
  competitions after = competitions two_pending
  /\ assignments after = assignments two_pending
  /\ map static_columns (submissions after)
     = map static_columns (submissions two_pending)
  /\ (primary_keys two_pending -> primary_keys after).
Proof.
  exact (pass_writes_result_columns_only first_only 1 (mkWorld two_pending [])).
Defined.

Lemma pass_leaves_other_rows_witness :
  primary_keys with_orphan
  /\ In (mkSubmission 4 2 4 7 text pending None None None)
       (submissions
          (db (snd (grade_all_submissions_background first_only 1
                      (mkWorld with_orphan [])))))
  /\ forall r',
       In r' (submissions
                (db (snd (grade_all_submissions_background first_only 1
                            (mkWorld with_orphan []))))) ->
       s_id r' = 4 ->
       r' = mkSubmission 4 2 4 7 text pending None None None.
Proof.
  assert (H : primary_keys with_orphan) by keys_by_inspection.
  split; [exact H |].
  refine (pass_leaves_other_rows first_only 1 (mkWorld with_orphan [])
            (mkSubmission 4 2 4 7 text pending None None None) H _ _).
  - simpl. right. right. left. reflexivity.
  - left. discriminate.
Defined.

Lemma pass_grader_calls client rows :
  forall idx d,
    grader_calls (fst (pass client idx rows d))
    = map (fun p => s_id (p_submission p)) rows
    /\ length (commits (fst (pass client idx rows d))) = (2 * length rows)%nat.
Proof.
  induction rows as [| p rest IH]; intros idx d; [split; reflexivity |].
  cbn [pass].
  destruct (iteration (client idx) p d) as [events d'] eqn:E.
  unfold iteration in E. injection E as <- <-.
  match goal with
  | |- context [pass client (S idx) rest ?x] =>
      specialize (IH (S idx) x); destruct (pass client (S idx) rest x) as [later d'']
  end.
  cbn [fst] in *. destruct IH as [IHc IHn]. unfold grader_calls, commits in *.
  rewrite !flat_map_app. cbn [flat_map app map length].
  rewrite IHc, IHn. split; [reflexivity | lia].
Qed.

(** X9. The grader is called exactly once for each submission of the
    snapshot, in snapshot order, and for no other submission; the pass makes
    two commits per submission. *)
Theorem grader_called_once_per_snapshot_row :
  forall client competition_id w,
    exists events,
      log (snd (grade_all_submissions_background client competition_id w))
      = (log w ++ events)%list
      /\ grader_calls events
         = map (fun p => s_id (p_submission p))
             (select_pending competition_id (db w))
      /\ length (commits events)
         = (2 * length (select_pending competition_id (db w)))%nat.
Proof.
  intros client competition_id w.
  exists (fst (pass client 1 (select_pending competition_id (db w)) (db w))).
  split; [rewrite background_pass; reflexivity |].
  apply pass_grader_calls.
Qed.

(** X10. A [pending] submission whose assignment row does not exist is
    counted by the query of [start_grading], but the snapshot of the pass
    (which joins the assignments) leaves it out: under the primary keys the
    grader is not called for it, the pass does not touch it, and it is still
    [pending] afterwards. *)
Theorem pending_without_assignment_is_never_graded :
  forall client competition_id w r,
    primary_keys (db w) ->
    In r (submissions (db w)) ->
    s_competition_id r = competition_id ->
    s_status r = pending ->
    (forall a, In a (assignments (db w)) -> a_id a <> s_assignment_id r) ->
    let w' := snd (grade_all_submissions_background client competition_id w) in
    1 <= count_pending competition_id (db w)
    /\ (exists events,
          log w' = (log w ++ events)%list
          /\ ~ In (s_id r) (grader_calls events))
    /\ In r (submissions (db w'))
    /\ forall r', In r' (submissions (db w')) -> s_id r' = s_id r -> r' = r.
Proof.
  intros client competition_id w r Hpk Hr Hc Hst Hno w'.
  assert (Hout : ~ In (s_id r)
                   (map (fun p => s_id (p_submission p))
                      (select_pending competition_id (db w)))).
  { intros Hin. destruct (snapshot_id_row _ _ _ Hpk Hr Hin) as (_ & _ & a & Ha & E).
    exact (Hno a Ha E). }
  assert (Hsub : submissions (db w')
                 = map (row_pass client 1
                          (select_pending competition_id (db w)))
                       (submissions (db w))).
  { unfold w'. rewrite background_pass. cbn [snd db].
    apply pass_submissions. }
  assert (Hkeep : row_pass client 1 (select_pending competition_id (db w)) r = r)
    by (apply row_pass_untouched; exact Hout).
  split; [| split; [| split]].
  - unfold count_pending.
    assert (Hin : In r (filter
                          (fun s => (s_competition_id s =? competition_id)
                                    && status_eqb (s_status s) pending)
                          (submissions (db w)))).
    { apply filter_In. split; [exact Hr |].
      rewrite Hc, Z.eqb_refl, Hst. reflexivity. }
    destruct (filter _ (submissions (db w))); [contradiction | simpl; lia].
  - exists (fst (pass client 1 (select_pending competition_id (db w)) (db w))).
    split; [unfold w'; rewrite background_pass; reflexivity |].
    rewrite (proj1 (pass_grader_calls client _ 1 (db w))). exact Hout.
  - rewrite Hsub, <- Hkeep. apply in_map. exact Hr.
  - intros r' Hr' Hid. rewrite Hsub in Hr'.
    apply in_map_iff in Hr' as (r0 & <- & Hr0).
    rewrite row_pass_id in Hid.
    rewrite (unique_row (submissions (db w)) r0 r (proj1 Hpk) Hr0 Hr Hid).
    exact Hkeep.
Qed.

Lemma pending_without_assignment_is_never_graded_witness :
  primary_keys with_orphan
  /\ 1 <= count_pending 1 with_orphan
  /\ (exists events,
        log (snd (grade_all_submissions_background first_only 1
                    (mkWorld with_orphan [])))
        = ([] ++ events)%list
        /\ ~ In 3 (grader_calls events))
  /\ In (fresh 3 9)
       (submissions
          (db (snd (grade_all_submissions_background first_only 1
                      (mkWorld with_orphan [])))))
  /\ forall r',
       In r' (submissions
                (db (snd (grade_all_submissions_background first_only 1
                            (mkWorld with_orphan []))))) ->
       s_id r' = 3 -> r' = fresh 3 9.
Proof.
  assert (H : primary_keys with_orphan) by keys_by_inspection.
  split; [exact H |].
  refine (pending_without_assignment_is_never_graded first_only 1
            (mkWorld with_orphan []) (fresh 3 9) H _ eq_refl eq_refl _).
  - simpl. right. left. reflexivity.
  - intros a [<- | []]. discriminate.
Defined.



(** X14. A pass leaves nothing for a pass that follows it: the next
    snapshot of the same competition is empty, so the next pass changes
    neither the tables nor the log. In particular a submission that ended in
    [error] is not graded again. *)
Theorem second_pass_is_noop :
  forall client client' competition_id w,
    let w' := snd (grade_all_submissions_background client competition_id w) in
    select_pending competition_id (db w') = []
    /\ grade_all_submissions_background client' competition_id w' = (tt, w').
Proof.
  intros client client' competition_id w w'.
  assert (Hdb : db w' = snd (pass client 1 (select_pending competition_id (db w))
                               (db w))).
  { unfold w'. rewrite background_pass. reflexivity. }
  assert (Hnone : select_pending competition_id (db w') = []).
  { destruct (select_pending competition_id (db w')) as [| p rest] eqn:E;
      [reflexivity |].
    exfalso.
    assert (Hp : In p (select_pending competition_id (db w')))
      by (rewrite E; left; reflexivity).
    destruct (select_pending_assignment _ _ _ Hp) as (a & Ha & Ea & _).
    apply select_pending_In in Hp as (Hin & Hst & Hc).
    rewrite Hdb in Hin, Ha. rewrite pass_submissions in Hin.
    rewrite (proj2 (pass_other_tables client _ 1 (db w))) in Ha.
    apply in_map_iff in Hin as (r & Er & Hr).
    destruct (in_dec Z.eq_dec (s_id r)
                (map (fun q => s_id (p_submission q))
                   (select_pending competition_id (db w)))) as [Hyes | Hno].
    - pose proof (row_pass_terminal client _ 1 r Hyes) as Hterm.
      rewrite Er, Hst in Hterm. destruct Hterm; discriminate.
    - rewrite (row_pass_untouched client _ 1 r Hno) in Er. subst r.
      apply Hno. apply in_map_iff.
      exists (mkPending (p_submission p) (a_prompt a)). split; [reflexivity |].
      apply select_pending_intro; auto. }
  split; [exact Hnone |].
  unfold grade_all_submissions_background at 1. unfold then_, select.
  rewrite Hnone. reflexivity.
Qed.

(** The snapshot holds at most one row for each submission that is counted
    as pending. *)
Lemma snapshot_rows_bound (competition_id : Z)
    (assignments_ : list assignment) (l : list submission) :
  NoDup (map a_id assignments_) ->
  Z.of_nat
    (length
       (flat_map
          (fun s =>
             if (s_competition_id s =? competition_id)
                && status_eqb (s_status s) pending
             then map (fun a => mkPending s (a_prompt a))
                    (filter (fun a => s_assignment_id s =? a_id a) assignments_)
             else [])
          l))
  <= Z.of_nat
       (length
          (filter
             (fun s =>
                (s_competition_id s =? competition_id)
                && status_eqb (s_status s) pending)
             l)).
Proof.
  intros Hk. induction l as [| s l IH]; [simpl; lia |].
  cbn [flat_map filter]. rewrite length_app.
  destruct ((s_competition_id s =? competition_id)
            && status_eqb (s_status s) pending).
  - rewrite length_map.
    pose proof (filter_key_unique (s_assignment_id s) assignments_ Hk).
    cbn [length]. lia.
  - cbn [length]. lia.
Qed.

(** X15. [start_grading] only reads: it never changes the tables or the
    log. It schedules one pass for the competition exactly when the
    competition exists and has a pending submission, and then reports their
    number; a missing competition is answered with a 404. Under the primary
    key of the assignments the pass it schedules grades at most the reported
    number of submissions. *)
Theorem start_grading_schedules_when_pending :
  forall competition_id background_tasks w,
    let answer := fst (fst (start_grading competition_id background_tasks w)) in
    let tasks := snd (fst (start_grading competition_id background_tasks w)) in
    snd (start_grading competition_id background_tasks w) = w
    /\ (select_competition competition_id (db w) = None ->
        answer = Raise (mkExc (HTTPException 404) "Competition not found")
        /\ tasks = background_tasks)
    /\ (select_competition competition_id (db w) <> None ->
        count_pending competition_id (db w) <> 0 ->
        answer
        = Return (mkResponse
                    ("Grading started for "
                       ++ digits (count_pending competition_id (db w))
                       ++ " submissions"))
        /\ tasks = (background_tasks ++ [competition_id])%list)
    /\ (tasks = (background_tasks ++ [competition_id])%list
        <-> select_competition competition_id (db w) <> None
            /\ count_pending competition_id (db w) <> 0)
    /\ (NoDup (map a_id (assignments (db w))) ->
        Z.of_nat (length (select_pending competition_id (db w)))
        <= count_pending competition_id (db w)).
Proof.
  intros competition_id background_tasks w answer tasks.
  unfold answer, tasks, start_grading, then_, select, pure.
  assert (Hgrow : (background_tasks ++ [competition_id])%list <> background_tasks).
  { intros E. apply (f_equal (@length Z)) in E.
    rewrite length_app in E. simpl in E. lia. }
  destruct (select_competition competition_id (db w)) as [c |];
    [destruct (Z.eqb_spec (count_pending competition_id (db w)) 0) as [E | N] |];
    cbn [fst snd].
  - split; [reflexivity |]. split; [discriminate |].
    split; [intros _ H; contradiction |]. split.
    + split; [intros H; symmetry in H; contradiction | intros [_ H]; contradiction].
    + intros Hk. unfold select_pending, count_pending.
      apply snapshot_rows_bound. exact Hk.
  - split; [reflexivity |]. split; [discriminate |].
    split; [intros _ _; split; reflexivity |]. split.
    + split; [intros _; split; [discriminate | exact N] | reflexivity].
    + intros Hk. unfold select_pending, count_pending.
      apply snapshot_rows_bound. exact Hk.
  - split; [reflexivity |]. split; [intros _; split; reflexivity |].
    split; [intros H; contradiction |]. split.
    + split; [intros H; symmetry in H; contradiction | intros [H _]; contradiction].
    + intros Hk. unfold select_pending, count_pending.
      apply snapshot_rows_bound. exact Hk.
Qed.

Lemma start_grading_schedules_when_pending_witness :
  snd (fst (start_grading 1 [] (mkWorld two_pending []))) = [1]
  /\ snd (start_grading 1 [] (mkWorld two_pending [])) = mkWorld two_pending [].
Proof.
  pose proof (start_grading_schedules_when_pending 1 []
                (mkWorld two_pending [])) as (Hsame & _ & Hsome & _).
  split; [| exact Hsame].
  refine (proj2 (Hsome _ _)); discriminate.
Defined.

(** * The progress query *)

Lemma status_eqb_eq a b : status_eqb a b = true <-> a = b.
Proof. destruct a, b; simpl; split; intros H; congruence. Qed.

Lemma dict_get_counts competition_id d st :
  dict_get (select_status_counts competition_id d) st 0
  = rows_with competition_id st d.
Proof.
  unfold select_status_counts, rows_with, all_statuses. cbn [map filter snd].
  repeat match goal with
         | |- context [0 <? ?n] => destruct (Z.ltb_spec 0 n)
         end;
    destruct st; cbn [dict_get status_eqb]; lia.
Qed.

Lemma sum_values_counts competition_id d :
  sum_values (select_status_counts competition_id d)
  = rows_with competition_id pending d + rows_with competition_id grading d
    + rows_with competition_id completed d + rows_with competition_id error d.
Proof.
  unfold select_status_counts, rows_with, all_statuses, sum_values.
  cbn [map filter snd].
  repeat match goal with
         | |- context [0 <? ?n] => destruct (Z.ltb_spec 0 n)
         end;
    cbn [fold_left snd]; lia.
Qed.

Lemma rows_partition (competition_id : Z) (l : list submission) :
  Z.of_nat (length (filter (fun s => s_competition_id s =? competition_id) l))
  = Z.of_nat
      (length (filter (fun s => (s_competition_id s =? competition_id)
                                && status_eqb (s_status s) pending) l))
    + Z.of_nat
        (length (filter (fun s => (s_competition_id s =? competition_id)
                                  && status_eqb (s_status s) grading) l))
    + Z.of_nat
        (length (filter (fun s => (s_competition_id s =? competition_id)
                                  && status_eqb (s_status s) completed) l))
    + Z.of_nat
        (length (filter (fun s => (s_competition_id s =? competition_id)
                                  && status_eqb (s_status s) error) l)).
Proof.
  induction l as [| s l IH]; [reflexivity |]. cbn [filter].
  destruct (s_competition_id s =? competition_id); cbn [andb]; [| exact IH].
  destruct (s_status s); cbn [status_eqb length];
    rewrite !Nat2Z.inj_succ; lia.
Qed.

Lemma get_grading_status_counts :
  forall competition_id w,
    let report := fst (get_grading_status competition_id w) in
    snd (get_grading_status competition_id w) = w
    /\ n_pending report = count_pending competition_id (db w)
    /\ n_grading report = rows_with competition_id grading (db w)
    /\ n_completed report = rows_with competition_id completed (db w)
    /\ n_error report = rows_with competition_id error (db w)
    /\ n_total report
       = n_pending report + n_grading report + n_completed report
         + n_error report
    /\ n_total report
       = Z.of_nat
           (length
              (filter (fun s => s_competition_id s =? competition_id)
                 (submissions (db w)))).
Proof.
  intros competition_id w report. unfold report, get_grading_status, then_,
    select, pure. cbn [fst snd n_total n_pending n_grading n_completed n_error].
  rewrite !dict_get_counts, sum_values_counts.
  repeat split; try reflexivity.
  unfold rows_with. rewrite (rows_partition competition_id). lia.
Qed.

(** X11. The progress report is consistent: each of its four counts is the
    number of the competition's submissions with that status, [pending] is
    the count [start_grading] reports, and [total], the sum of the four, is
    the number of submissions of the competition. The query writes
    nothing. *)
Theorem progress_counts_add_up :
  forall competition_id w,
    let report := fst (get_grading_status competition_id w) in
    snd (get_grading_status competition_id w) = w
    /\ n_pending report = count_pending competition_id (db w)
    /\ n_grading report = rows_with competition_id grading (db w)
    /\ n_completed report = rows_with competition_id completed (db w)
    /\ n_error report = rows_with competition_id error (db w)
    /\ n_total report
       = n_pending report + n_grading report + n_completed report
         + n_error report
    /\ n_total report
       = Z.of_nat
           (length
              (filter (fun s => s_competition_id s =? competition_id)
                 (submissions (db w)))).
Proof. exact get_grading_status_counts. Qed.

(** ** Counting rows before and after a pass *)

Lemma filter_map_length {A B : Type} (f : B -> bool) (g : A -> B) (l : list A) :
  length (filter f (map g l)) = length (filter (fun x => f (g x)) l).
Proof.
  induction l as [| x l IH]; [reflexivity |]. simpl.
  destruct (f (g x)); simpl; rewrite IH; reflexivity.
Qed.

Lemma filter_length_split {A : Type} (f h : A -> bool) (l : list A) :
  length (filter f l)
  = (length (filter (fun x => f x && h x) l)
     + length (filter (fun x => f x && negb (h x)) l))%nat.
Proof.
  induction l as [| x l IH]; [reflexivity |]. simpl.
  destruct (f x), (h x); simpl; lia.
Qed.

(** Selecting rows keeps their ids distinct. *)
Lemma selected_ids_distinct (keep : submission -> bool) (rows : list submission) :
  NoDup (map s_id rows) -> NoDup (map s_id (filter keep rows)).
Proof.
  induction rows as [| r rows IH]; intros Hrows; cbn [filter map];
    [constructor |].
  cbn [map] in Hrows. apply NoDup_cons_iff in Hrows as [Hfresh Hrest].
  destruct (keep r); [| exact (IH Hrest)].
  cbn [map]. apply NoDup_cons; [| exact (IH Hrest)].
  intros Hin. apply Hfresh. apply in_map_iff in Hin as (r' & Hid & Hkept).
  apply in_map_iff. exists r'. split; [exact Hid |].
  exact (proj1 (proj1 (filter_In _ _ _) Hkept)).
Qed.

Section Counting.
Variable client : nat -> oracle.
Variable competition_id : Z.
Variable d : database.
Hypothesis keys : primary_keys d.

Local Notation "'snapshot'" := (select_pending competition_id d).
Local Notation "'ids'" := (map (fun p => s_id (p_submission p)) snapshot).
Local Notation "'taken'" := (Store.taken competition_id d).
Local Notation "'after'" := (row_pass client 1 snapshot).

Lemma taken_spec r : taken r = true <-> In (s_id r) ids.
Proof.
  unfold Store.taken. rewrite existsb_exists. split.
  - intros (i & Hi & E). apply Z.eqb_eq in E. subst i. exact Hi.
  - intros H. exists (s_id r). split; [exact H | apply Z.eqb_refl].
Qed.

Lemma taken_row r :
  In r (submissions d) -> taken r = true ->
  s_competition_id r = competition_id
  /\ s_status r = pending
  /\ terminal (s_status (after r)).
Proof.
  intros Hr Ht. apply taken_spec in Ht.
  destruct (snapshot_id_row competition_id d r keys Hr Ht) as (Hc & Hst & _).
  split; [exact Hc |]. split; [exact Hst |].
  apply row_pass_terminal. exact Ht.
Qed.

Lemma untaken_row r : taken r = false -> after r = r.
Proof.
  intros Ht. apply row_pass_untouched. intros Hin.
  apply taken_spec in Hin. congruence.
Qed.

Lemma after_competition r : s_competition_id (after r) = s_competition_id r.
Proof.
  pose proof (row_pass_static client snapshot 1 r) as H.
  unfold static_columns in H. injection H as _ H _ _ _. exact H.
Qed.

Lemma taken_count :
  length (filter taken (submissions d)) = length snapshot.
Proof.
  rewrite <- (length_map s_id), <- (length_map (fun p => s_id (p_submission p)) snapshot).
  apply Permutation_length. apply NoDup_Permutation.
  - apply selected_ids_distinct. exact (proj1 keys).
  - apply select_pending_NoDup. exact keys.
  - intros x. split; intros H.
    + apply in_map_iff in H as (r & <- & Hr).
      apply filter_In in Hr as [_ Ht]. apply taken_spec. exact Ht.
    + pose proof (select_pending_ids competition_id d x H) as Hx.
      apply in_map_iff in Hx as (r & <- & Hr).
      apply in_map. apply filter_In. split; [exact Hr |].
      apply taken_spec. exact H.
Qed.

Lemma rows_after other st :
  rows_with other st (snd (pass client 1 snapshot d))
  = Z.of_nat
      (length
         (filter
            (fun r => (s_competition_id (after r) =? other)
                      && status_eqb (s_status (after r)) st)
            (submissions d))).
Proof.
  unfold rows_with. rewrite pass_submissions.
  rewrite filter_map_length. reflexivity.
Qed.

Lemma pending_after :
  rows_with competition_id pending (snd (pass client 1 snapshot d))
  = rows_with competition_id pending d - Z.of_nat (length snapshot).
Proof.
  rewrite rows_after. unfold rows_with.
  rewrite (filter_length_split
             (fun s => (s_competition_id s =? competition_id)
                       && status_eqb (s_status s) pending) taken).
  rewrite <- taken_count.
  rewrite (filter_ext_in
             (fun x => ((s_competition_id x =? competition_id)
                        && status_eqb (s_status x) pending) && taken x)
             taken).
  2:{ intros r Hr. destruct (taken r) eqn:Ht; [| apply andb_false_r].
      destruct (taken_row r Hr Ht) as (-> & -> & _).
      rewrite Z.eqb_refl. reflexivity. }
  rewrite (filter_ext_in
             (fun r => (s_competition_id (after r) =? competition_id)
                       && status_eqb (s_status (after r)) pending)
             (fun x => ((s_competition_id x =? competition_id)
                        && status_eqb (s_status x) pending) && negb (taken x))).
  2:{ intros r Hr. destruct (taken r) eqn:Ht.
      - destruct (taken_row r Hr Ht) as (_ & _ & [E | E]); rewrite E;
          cbn [status_eqb negb]; rewrite !andb_false_r; reflexivity.
      - rewrite (untaken_row r Ht), andb_true_r. reflexivity. }
  lia.
Qed.

Lemma grading_after :
  rows_with competition_id grading (snd (pass client 1 snapshot d))
  = rows_with competition_id grading d.
Proof.
  rewrite rows_after. unfold rows_with. f_equal. f_equal.
  apply filter_ext_in. intros r Hr. destruct (taken r) eqn:Ht.
  - destruct (taken_row r Hr Ht) as (_ & -> & [E | E]); rewrite E;
      cbn [status_eqb]; rewrite !andb_false_r; reflexivity.
  - rewrite (untaken_row r Ht). reflexivity.
Qed.

Lemma competition_rows_after other :
  length (filter (fun s => s_competition_id s =? other)
            (submissions (snd (pass client 1 snapshot d))))
  = length (filter (fun s => s_competition_id s =? other) (submissions d)).
Proof.
  rewrite pass_submissions, filter_map_length.
  f_equal. apply filter_ext. intros r.
  rewrite after_competition. reflexivity.
Qed.

Lemma other_rows_after other st :
  other <> competition_id ->
  rows_with other st (snd (pass client 1 snapshot d)) = rows_with other st d.
Proof.
  intros Hne. rewrite rows_after. unfold rows_with. f_equal. f_equal.
  apply filter_ext_in. intros r Hr. destruct (taken r) eqn:Ht.
  - destruct (taken_row r Hr Ht) as (Hc & _ & _).
    rewrite after_competition, Hc.
    destruct (Z.eqb_spec competition_id other); [congruence | reflexivity].
  - rewrite (untaken_row r Ht). reflexivity.
Qed.

End Counting.

(** X12. What a pass does to the progress report, under the primary keys:
    with K submissions in the snapshot, [pending] drops by K, [completed]
    and [error] together grow by K, [grading] and [total] stay the same; the
    report of any other competition is unchanged. *)
Theorem progress_after_pass :
  forall client competition_id w,
    primary_keys (db w) ->
    let w' := snd (grade_all_submissions_background client competition_id w) in
    let before := fst (get_grading_status competition_id w) in
    let after := fst (get_grading_status competition_id w') in
    let graded := Z.of_nat (length (select_pending competition_id (db w))) in
    n_total after = n_total before
    /\ n_pending after = n_pending before - graded
    /\ n_grading after = n_grading before
    /\ n_completed after + n_error after
       = n_completed before + n_error before + graded
    /\ forall other,
         other <> competition_id ->
         fst (get_grading_status other w') = fst (get_grading_status other w).
Proof.
  intros client competition_id w Hpk w' before after graded.
  assert (Hdb : db w' = snd (pass client 1 (select_pending competition_id (db w))
                               (db w))).
  { unfold w'. rewrite background_pass. reflexivity. }
  destruct (get_grading_status_counts competition_id w)
    as (_ & Hp & Hg & Hc & He & Hsum & Htot).
  destruct (get_grading_status_counts competition_id w')
    as (_ & Hp' & Hg' & Hc' & He' & Hsum' & Htot').
  fold before in Hp, Hg, Hc, He, Hsum, Htot.
  fold after in Hp', Hg', Hc', He', Hsum', Htot'.
  assert (Et : n_total after = n_total before).
  { rewrite Htot', Htot, Hdb, competition_rows_after. reflexivity. }
  assert (Ep : n_pending after = n_pending before - graded).
  { rewrite Hp', Hp, Hdb. apply pending_after. exact Hpk. }
  assert (Eg : n_grading after = n_grading before).
  { rewrite Hg', Hg, Hdb. apply grading_after. exact Hpk. }
  split; [exact Et |]. split; [exact Ep |]. split; [exact Eg |].
  split; [lia |].
  intros other Hne. unfold get_grading_status, then_, select, pure. cbn [fst].
  unfold sum_values. f_equal;
    try (rewrite !dict_get_counts, Hdb; apply other_rows_after; assumption).
  fold (sum_values (select_status_counts other (db w'))).
  fold (sum_values (select_status_counts other (db w))).
  rewrite !sum_values_counts, Hdb, !other_rows_after by assumption.
  reflexivity.
Qed.

Lemma progress_after_pass_witness :
  primary_keys with_orphan
  /\ n_pending
       (fst (get_grading_status 1
               (snd (grade_all_submissions_background first_only 1
                       (mkWorld with_orphan [])))))
     = n_pending (fst (get_grading_status 1 (mkWorld with_orphan []))) - 1.
Proof.
  assert (H : primary_keys with_orphan) by keys_by_inspection.
  split; [exact H |].
  exact (proj1 (proj2 (progress_after_pass first_only 1
                         (mkWorld with_orphan []) H))).
Defined.

(** * The leaderboard *)

Lemma rank_rows_rows rows : forall rank, map e_row (rank_rows rank rows) = rows.
Proof.
  induction rows as [| r rest IH]; intros rank; [reflexivity |]. simpl.
  destruct (l_average_score r); simpl; rewrite IH; reflexivity.
Qed.

Lemma rank_rows_ranks rows :
  forall rank,
    ranks (rank_rows rank rows)
    = map (fun i => rank + Z.of_nat i) (seq 0 (length (filter scored rows))).
Proof.
  induction rows as [| r rest IH]; intros rank; [reflexivity |].
  unfold ranks in *. cbn [rank_rows filter]. unfold scored at 1.
  destruct (l_average_score r); cbn [flat_map e_rank app].
  - rewrite IH. cbn [length seq map]. rewrite Z.add_0_r. f_equal.
    rewrite <- seq_shift, map_map. apply map_ext. intros i. lia.
  - apply IH.
Qed.

Lemma rank_rows_none rows :
  forall rank e,
    In e (rank_rows rank rows) ->
    (e_rank e = None <-> l_average_score (e_row e) = None).
Proof.
  induction rows as [| r rest IH]; intros rank e H; [contradiction |].
  simpl in H. destruct (l_average_score r) eqn:E; destruct H as [<- | H];
    simpl; try (eapply IH; exact H); rewrite E; split; intros; congruence.
Qed.

(** X16. The leaderboard keeps the rows of the query in their order; a row
    gets no rank exactly when its average is NULL; and the ranks given, read
    down the board, are 1, 2, ..., m where m is the number of rows with an
    average: no rank is skipped and none is shared, also among equal
    averages. *)
Theorem leaderboard_ranks_are_consecutive :
  forall fetched,
    let board := get_leaderboard fetched in
    map e_row board = fetched
    /\ (forall e, In e board ->
          (e_rank e = None <-> l_average_score (e_row e) = None))
    /\ ranks board
       = map Z.of_nat (seq 1 (length (filter scored fetched))).
Proof.
  intros fetched board. unfold board, get_leaderboard.
  split; [apply rank_rows_rows |]. split; [apply rank_rows_none |].
  rewrite rank_rows_ranks, <- seq_shift, map_map.
  apply map_ext. intros i. lia.
Qed.

Lemma rank_rows_prefix rows :
  forall rank later i e,
    Forall (fun r => scored r = true) rows ->
    nth_error (rank_rows rank (rows ++ later)) i = Some e ->
    (i < length rows)%nat ->
    e_rank e = Some (rank + Z.of_nat i).
Proof.
  induction rows as [| r rest IH]; intros rank later i e Hall He Hi;
    [simpl in Hi; lia |].
  inversion Hall as [| ? ? Hr Hrest]; subst.
  cbn [app rank_rows] in He. unfold scored in Hr.
  destruct (l_average_score r); [| discriminate].
  destruct i as [| i]; simpl in He.
  - injection He as <-. simpl. f_equal. lia.
  - rewrite (IH (rank + 1) later i e Hrest He) by (simpl in Hi; lia).
    f_equal. lia.
Qed.

Lemma rank_rows_unscored rows :
  forall rank,
    Forall (fun r => scored r = false) rows ->
    Forall (fun e => e_rank e = None) (rank_rows rank rows).
Proof.
  induction rows as [| r rest IH]; intros rank Hall; [constructor |].
  inversion Hall as [| ? ? Hr Hrest]; subst. simpl. unfold scored in Hr.
  destruct (l_average_score r); [discriminate |].
  constructor; [reflexivity | apply IH; exact Hrest].
Qed.

Lemma rank_rows_app rows :
  forall rank later,
    rank_rows rank (rows ++ later)
    = (rank_rows rank rows
       ++ rank_rows (rank + Z.of_nat (length (filter scored rows))) later)%list.
Proof.
  induction rows as [| r rest IH]; intros rank later.
  - simpl. rewrite Z.add_0_r. reflexivity.
  - cbn [app rank_rows filter].
    assert (Hs : scored r = match l_average_score r with
                            | Some _ => true
                            | None => false
                            end) by reflexivity.
    destruct (l_average_score r); rewrite Hs, IH; cbn [app length].
    + rewrite Nat2Z.inj_succ.
      replace (rank + 1 + Z.of_nat (length (filter scored rest)))
        with (rank + Z.succ (Z.of_nat (length (filter scored rest)))) by lia.
      reflexivity.
    + reflexivity.
Qed.

(** X17. When the rows come with NULL averages last, as the query orders
    them, the rank of a row with an average is its position on the board,
    counted from 1, and the rows after them have no rank. *)
Theorem leaderboard_rank_is_position :
  forall with_average without_average,
    Forall (fun r => scored r = true) with_average ->
    Forall (fun r => scored r = false) without_average ->
    let board := get_leaderboard (with_average ++ without_average) in
    (forall i e,
       nth_error board i = Some e -> (i < length with_average)%nat ->
       e_rank e = Some (Z.of_nat i + 1))
    /\ (forall i e,
          nth_error board i = Some e -> (length with_average <= i)%nat ->
          e_rank e = None).
Proof.
  intros with_average without_average Hs Hn board. split.
  - intros i e He Hi. unfold board, get_leaderboard in He.
    rewrite (rank_rows_prefix _ _ _ _ _ Hs He Hi). f_equal. lia.
  - intros i e He Hi. unfold board, get_leaderboard in He.
    rewrite rank_rows_app in He.
    rewrite nth_error_app2 in He.
    + pose proof (rank_rows_unscored without_average
                    (1 + Z.of_nat (length (filter scored with_average))) Hn)
        as Hall.
      rewrite Forall_forall in Hall. apply Hall.
      eapply nth_error_In. exact He.
    + rewrite <- (length_map e_row), rank_rows_rows. exact Hi.
Qed.

(** * The score distribution *)

Lemma how_many_cons test s rest :
  how_many test (s :: rest) = indicator (test s) + how_many test rest.
Proof.
  unfold how_many, indicator. cbn [filter].
  destruct (test s); [cbn [length]; rewrite Nat2Z.inj_succ |]; lia.
Qed.

Lemma count_score_step bins s :
  bin_0_20 (count_score bins s) = bin_0_20 bins + indicator (Qle_bool s 20)
  /\ bin_21_40 (count_score bins s)
     = bin_21_40 bins + indicator (negb (Qle_bool s 20) && Qle_bool s 40)
  /\ bin_41_60 (count_score bins s)
     = bin_41_60 bins + indicator (negb (Qle_bool s 40) && Qle_bool s 60)
  /\ bin_61_80 (count_score bins s)
     = bin_61_80 bins + indicator (negb (Qle_bool s 60) && Qle_bool s 80)
  /\ bin_81_100 (count_score bins s)
     = bin_81_100 bins + indicator (negb (Qle_bool s 80)).
Proof.
  assert (L1 : Qle_bool s 20 = true -> Qle_bool s 40 = true).
  { rewrite !Qle_bool_iff. intros H. lra. }
  assert (L2 : Qle_bool s 40 = true -> Qle_bool s 60 = true).
  { rewrite !Qle_bool_iff. intros H. lra. }
  assert (L3 : Qle_bool s 60 = true -> Qle_bool s 80 = true).
  { rewrite !Qle_bool_iff. intros H. lra. }
  unfold count_score.
  destruct (Qle_bool s 20) eqn:E20.
  { rewrite (L1 eq_refl), (L2 (L1 eq_refl)), (L3 (L2 (L1 eq_refl))).
    cbn [indicator negb andb bin_0_20 bin_21_40 bin_41_60 bin_61_80 bin_81_100]. repeat split; lia. }
  destruct (Qle_bool s 40) eqn:E40.
  { rewrite (L2 eq_refl), (L3 (L2 eq_refl)). cbn [indicator negb andb bin_0_20 bin_21_40 bin_41_60 bin_61_80 bin_81_100]. repeat split; lia. }
  destruct (Qle_bool s 60) eqn:E60.
  { rewrite (L3 eq_refl). cbn [indicator negb andb bin_0_20 bin_21_40 bin_41_60 bin_61_80 bin_81_100]. repeat split; lia. }
  destruct (Qle_bool s 80) eqn:E80; cbn [indicator negb andb bin_0_20 bin_21_40 bin_41_60 bin_61_80 bin_81_100]; repeat split; lia.
Qed.

Lemma fold_count_score scores :
  forall bins,
    bin_0_20 (fold_left count_score scores bins)
    = bin_0_20 bins + how_many (fun s => Qle_bool s 20) scores
    /\ bin_21_40 (fold_left count_score scores bins)
       = bin_21_40 bins
         + how_many (fun s => negb (Qle_bool s 20) && Qle_bool s 40) scores
    /\ bin_41_60 (fold_left count_score scores bins)
       = bin_41_60 bins
         + how_many (fun s => negb (Qle_bool s 40) && Qle_bool s 60) scores
    /\ bin_61_80 (fold_left count_score scores bins)
       = bin_61_80 bins
         + how_many (fun s => negb (Qle_bool s 60) && Qle_bool s 80) scores
    /\ bin_81_100 (fold_left count_score scores bins)
       = bin_81_100 bins + how_many (fun s => negb (Qle_bool s 80)) scores.
Proof.
  induction scores as [| s rest IH]; intros bins.
  - unfold how_many. simpl. repeat split; lia.
  - cbn [fold_left]. rewrite !how_many_cons.
    destruct (IH (count_score bins s)) as (H1 & H2 & H3 & H4 & H5).
    destruct (count_score_step bins s) as (S1 & S2 & S3 & S4 & S5).
    rewrite H1, H2, H3, H4, H5, S1, S2, S3, S4, S5.
    repeat split; lia.
Qed.

Lemma bins_cover scores :
  how_many (fun s => Qle_bool s 20) scores
  + how_many (fun s => negb (Qle_bool s 20) && Qle_bool s 40) scores
  + how_many (fun s => negb (Qle_bool s 40) && Qle_bool s 60) scores
  + how_many (fun s => negb (Qle_bool s 60) && Qle_bool s 80) scores
  + how_many (fun s => negb (Qle_bool s 80)) scores
  = Z.of_nat (length scores).
Proof.
  induction scores as [| s rest IH]; [reflexivity |].
  rewrite !how_many_cons. cbn [length]. rewrite Nat2Z.inj_succ.
  assert (L1 : Qle_bool s 20 = true -> Qle_bool s 40 = true).
  { rewrite !Qle_bool_iff. intros H. lra. }
  assert (L2 : Qle_bool s 40 = true -> Qle_bool s 60 = true).
  { rewrite !Qle_bool_iff. intros H. lra. }
  assert (L3 : Qle_bool s 60 = true -> Qle_bool s 80 = true).
  { rewrite !Qle_bool_iff. intros H. lra. }
  destruct (Qle_bool s 20) eqn:E20;
    [rewrite (L1 eq_refl), (L2 (L1 eq_refl)), (L3 (L2 (L1 eq_refl)));
     cbn [indicator negb andb]; lia |].
  destruct (Qle_bool s 40) eqn:E40;
    [rewrite (L2 eq_refl), (L3 (L2 eq_refl)); cbn [indicator negb andb]; lia |].
  destruct (Qle_bool s 60) eqn:E60; [rewrite (L3 eq_refl); cbn [indicator negb andb]; lia |].
  destruct (Qle_bool s 80) eqn:E80; cbn [indicator negb andb]; lia.
Qed.

(** X18. The score distribution counts every score exactly once: the five
    bins add up to the number of scores. The first bin takes every score up
    to 20, negative ones too; the next three take the scores in (20,40],
    (40,60] and (60,80]; the last takes every score above 80, those above
    100 too. *)
Theorem score_bins_partition_scores :
  forall scores,
    let bins := score_distribution scores in
    bin_0_20 bins + bin_21_40 bins + bin_41_60 bins + bin_61_80 bins
    + bin_81_100 bins
    = Z.of_nat (length scores)
    /\ bin_0_20 bins = how_many (fun s => Qle_bool s 20) scores
    /\ bin_21_40 bins
       = how_many (fun s => negb (Qle_bool s 20) && Qle_bool s 40) scores
    /\ bin_41_60 bins
       = how_many (fun s => negb (Qle_bool s 40) && Qle_bool s 60) scores
    /\ bin_61_80 bins
       = how_many (fun s => negb (Qle_bool s 60) && Qle_bool s 80) scores
    /\ bin_81_100 bins = how_many (fun s => negb (Qle_bool s 80)) scores.
Proof.
  intros scores bins. unfold bins, score_distribution.
  destruct (fold_count_score scores (mkBins 0 0 0 0 0))
    as (H1 & H2 & H3 & H4 & H5).
  cbn [bin_0_20 bin_21_40 bin_41_60 bin_61_80 bin_81_100] in *.
  pose proof (bins_cover scores) as Hall.
  repeat split; lia.
Qed.

Lemma leaderboard_rank_is_position_witness :
  (forall i e,
     nth_error (get_leaderboard board_rows) i = Some e -> (i < 2)%nat ->
     e_rank e = Some (Z.of_nat i + 1))
  /\ (forall i e,
        nth_error (get_leaderboard board_rows) i = Some e -> (2 <= i)%nat ->
        e_rank e = None).
Proof.
  refine (leaderboard_rank_is_position
            [mkRow 10 "kim" None None (Some 90%Q) 2 2;
             mkRow 11 "lee" None None (Some 90%Q) 1 1]
            [mkRow 12 "park" None None None 1 0] _ _);
    repeat constructor.
Defined.

(** X23. Rounding a statistic only when it is truthy loses nothing: the
    result is NULL exactly when the value is NULL, and otherwise it equals
    the value rounded to two places, because the one value the test lets
    through unrounded is zero. *)
Theorem truthy_rounding_rounds_everything :
  forall x,
    match x, round_if_truthy x with
    | None, None => True
    | Some q, Some q' => (q' == round2 q)%Q
    | _, _ => False
    end.
Proof.
  intros [q |]; simpl; [| exact I].
  destruct (Qeq_bool q 0) eqn:E; [| reflexivity].
  apply Qeq_bool_iff in E.
  rewrite (round2_comp q 0 E). rewrite E. reflexivity.
Qed.

(** * File names *)

Lemma length_of_append (x y : string) :
  String.length (x ++ y) = (String.length x + String.length y)%nat.
Proof. induction x as [| c x IH]; simpl; [reflexivity | rewrite IH; reflexivity]. Qed.

Lemma append_associative (x y z : string) : (x ++ y) ++ z = x ++ (y ++ z).
Proof. induction x as [| c x IH]; simpl; [reflexivity | rewrite IH; reflexivity]. Qed.

Lemma substring_whole (x : string) : substring 0 (String.length x) x = x.
Proof. induction x as [| c x IH]; simpl; [reflexivity | rewrite IH; reflexivity]. Qed.

Lemma substring_front (x y : string) :
  substring 0 (String.length x) (x ++ y) = x.
Proof.
  induction x as [| c x IH]; simpl; [destruct y; reflexivity |].
  rewrite IH. reflexivity.
Qed.

Lemma substring_back (x y : string) :
  substring (String.length x) (String.length (x ++ y) - String.length x) (x ++ y)
  = y.
Proof.
  induction x as [| c x IH]; cbn [append String.length substring].
  - rewrite Nat.sub_0_r. apply substring_whole.
  - exact IH.
Qed.

Lemma endswith_append (x suffix : string) : endswith (x ++ suffix) suffix = true.
Proof.
  induction x as [| c x IH]; cbn [append endswith].
  - destruct suffix; cbn [endswith]; rewrite String.eqb_refl; reflexivity.
  - rewrite IH. apply orb_true_r.
Qed.

Lemma endswith_suffix (s suffix : string) :
  endswith s suffix = true -> exists x, s = x ++ suffix.
Proof.
  induction s as [| c s IH]; cbn [endswith]; intros H.
  - rewrite orb_false_r in H. apply String.eqb_eq in H. subst suffix.
    exists "". reflexivity.
  - apply orb_true_iff in H as [H | H].
    + apply String.eqb_eq in H. exists "". simpl. exact H.
    + destruct (IH H) as (x & ->). exists (String c x). reflexivity.
Qed.

Lemma rfind_lt c s i : rfind c s = Some i -> (i < String.length s)%nat.
Proof.
  revert i. induction s as [| x s IH]; intros i H; simpl in H; [discriminate |].
  destruct (rfind c s) as [j |].
  - injection H as <-. specialize (IH j eq_refl). simpl. lia.
  - destruct (Ascii.eqb x c); [| discriminate]. injection H as <-. simpl. lia.
Qed.

Lemma rfind_last c x y :
  rfind c y = None -> rfind c (x ++ String c y) = Some (String.length x).
Proof.
  intros Hy. induction x as [| d x IH]; simpl.
  - rewrite Hy, Ascii.eqb_refl. reflexivity.
  - rewrite IH. reflexivity.
Qed.

Lemma rfind_append_clean c x y :
  rfind c y = None -> rfind c (x ++ y) = rfind c x.
Proof.
  intros Hy. induction x as [| d x IH]; simpl; [exact Hy |].
  rewrite IH. reflexivity.
Qed.

Lemma rfind_cons_none c d s :
  rfind c (String d s) = None <-> Ascii.eqb d c = false /\ rfind c s = None.
Proof.
  simpl. destruct (rfind c s); [split; [discriminate | intros [_ H]; discriminate] |].
  destruct (Ascii.eqb d c); split; try discriminate; auto.
  intros [H _]. discriminate.
Qed.

(** The part of a name after its last slash has a character that is not a
    dot when an underscore follows the slash. *)
Lemma not_only_dots p r k f :
  (f <= String.length p)%nat ->
  only_dots (substring f (String.length p + S k - f) (p ++ String "_" r)) = false.
Proof.
  revert f. induction p as [| c p IH]; intros f Hf.
  - simpl in Hf. assert (f = 0%nat) as -> by lia. reflexivity.
  - destruct f as [| f].
    + specialize (IH 0%nat (Nat.le_0_l _)).
      rewrite Nat.sub_0_r in *. cbn [String.length Nat.add append substring].
      cbn [only_dots]. rewrite IH. apply andb_false_r.
    + simpl in Hf. cbn [append substring String.length].
      replace (S (String.length p) + S k - S f)%nat
        with (String.length p + S k - f)%nat by lia.
      apply IH. lia.
Qed.

Lemma split_on_nonempty c s : split_on c s <> [].
Proof.
  destruct s as [| x s]; simpl; [discriminate |].
  destruct (Ascii.eqb x c); [discriminate |].
  destruct (split_on c s); discriminate.
Qed.

Lemma split_on_first c p a :
  rfind c p = None -> split_on c (p ++ String c a) = p :: split_on c a.
Proof.
  induction p as [| d p IH]; intros H.
  - simpl. rewrite Ascii.eqb_refl. reflexivity.
  - apply rfind_cons_none in H as [Hd Hp]. cbn [append split_on].
    rewrite Hd, (IH Hp). reflexivity.
Qed.

Lemma concat_cons (sep x : string) (rest : list string) :
  rest <> [] -> String.concat sep (x :: rest) = x ++ sep ++ String.concat sep rest.
Proof. destruct rest; [congruence | reflexivity]. Qed.

(** [c.join(s.split(c)) == s] *)
Lemma join_split c s : String.concat (String c "") (split_on c s) = s.
Proof.
  induction s as [| x s IH]; [reflexivity |]. cbn [split_on].
  destruct (Ascii.eqb_spec x c) as [-> | N].
  - rewrite concat_cons by apply split_on_nonempty. simpl. rewrite IH.
    reflexivity.
  - destruct (split_on c s) as [| part parts] eqn:E;
      [exfalso; exact (split_on_nonempty c s E) |].
    destruct parts as [| q parts].
    + simpl in *. rewrite IH. reflexivity.
    + change (String x (String.concat (String c "") (part :: q :: parts))
              = String x s).
      rewrite IH. reflexivity.
Qed.

Lemma split_on_clean c s :
  Forall (fun part => rfind c part = None) (split_on c s).
Proof.
  induction s as [| x s IH]; [repeat constructor |]. cbn [split_on].
  destruct (Ascii.eqb x c) eqn:E.
  - constructor; [reflexivity | exact IH].
  - destruct (split_on c s) as [| part parts];
      [repeat constructor; simpl; rewrite E; reflexivity |].
    inversion IH as [| ? ? Hpart Hparts]; subst.
    constructor; [| exact Hparts].
    apply rfind_cons_none. auto.
Qed.

Lemma split_on_single c s :
  (length (split_on c s) < 2)%nat <-> rfind c s = None.
Proof.
  induction s as [| x s IH]; [simpl; split; [reflexivity | lia] |].
  cbn [split_on]. rewrite rfind_cons_none.
  destruct (Ascii.eqb x c) eqn:E.
  - pose proof (split_on_nonempty c s). destruct (split_on c s); [congruence |].
    simpl. split; [lia | intros [H' _]; discriminate].
  - destruct (split_on c s) as [| part parts] eqn:Es;
      [exfalso; exact (split_on_nonempty c s Es) |].
    cbn [length] in *. rewrite IH. tauto.
Qed.

Lemma splitext_txt (base : string) :
  (exists p r, base = p ++ String "_" r /\ rfind "/" r = None) ->
  splitext (base ++ ".txt") = (base, ".txt").
Proof.
  intros (p & r & -> & Hr). unfold splitext.
  change ".txt" with (String "." "txt").
  rewrite (rfind_last "." (p ++ String "_" r) "txt" eq_refl).
  rewrite (rfind_append_clean "/" (p ++ String "_" r) (String "." "txt") eq_refl).
  rewrite (rfind_append_clean "/" p (String "_" r))
    by (apply rfind_cons_none; split; [reflexivity | exact Hr]).
  set (f := match rfind "/" p with Some i => S i | None => 0%nat end).
  assert (Hf : (f <= String.length p)%nat).
  { unfold f. destruct (rfind "/" p) as [i |] eqn:E; [| lia].
    apply rfind_lt in E. lia. }
  rewrite length_of_append. cbn [String.length].
  assert (Hle : (f <=? String.length p + S (String.length r))%nat = true)
    by (apply Nat.leb_le; lia).
  rewrite Hle. rewrite append_associative. cbn [append].
  rewrite (not_only_dots p (r ++ String "." "txt") (String.length r) f Hf).
  cbn [negb andb].
  replace (p ++ String "_" (r ++ ".txt")) with ((p ++ String "_" r) ++ ".txt")
    by apply append_associative.
  replace (String.length p + S (String.length r))%nat
    with (String.length (p ++ String "_" r))
    by (rewrite length_of_append; reflexivity).
  rewrite substring_front, substring_back. reflexivity.
Qed.

(** X19. A file named participant, underscore, assignment, ".txt" is read
    back as that participant and that assignment, when the participant name
    has no underscore and the assignment name no slash; the assignment name
    may hold underscores and the participant name a folder. *)
Theorem file_name_round_trip :
  forall participant_name assignment_name,
    rfind "_" participant_name = None ->
    rfind "/" assignment_name = None ->
    parse_file_name ((participant_name ++ "_" ++ assignment_name) ++ ".txt")
    = Some (participant_name, assignment_name).
Proof.
  intros pn an Hp Ha. unfold parse_file_name.
  rewrite endswith_append.
  rewrite splitext_txt by (exists pn, an; split; [reflexivity | exact Ha]).
  cbn [fst]. change (pn ++ "_" ++ an) with (pn ++ String "_" an).
  rewrite (split_on_first "_" pn an Hp).
  pose proof (split_on_nonempty "_" an) as Hne.
  pose proof (join_split "_" an) as Hjoin.
  destruct (split_on "_" an) as [| part parts]; [congruence |].
  cbn [length Nat.leb]. rewrite Hjoin. reflexivity.
Qed.

Lemma file_name_round_trip_witness :
  parse_file_name (("kim" ++ "_" ++ "task_1") ++ ".txt") = Some ("kim", "task_1").
Proof.
  refine (file_name_round_trip "kim" "task_1" _ _); reflexivity.
Defined.

(** X20. What a file name is taken for: it is passed over unless it ends in
    ".txt" and its name without the extension holds an underscore; otherwise
    the participant is what stands before the first underscore and the
    assignment all that follows it. *)
Theorem file_name_is_cut_at_first_underscore :
  forall name,
    (forall participant_name assignment_name,
       parse_file_name name = Some (participant_name, assignment_name) ->
       endswith name ".txt" = true
       /\ rfind "_" participant_name = None
       /\ fst (splitext name) = participant_name ++ "_" ++ assignment_name)
    /\ (parse_file_name name = None
        <-> endswith name ".txt" = false
            \/ rfind "_" (fst (splitext name)) = None).
Proof.
  intros name. unfold parse_file_name.
  pose proof (split_on_nonempty "_" (fst (splitext name))) as Hne.
  pose proof (join_split "_" (fst (splitext name))) as Hjoin.
  pose proof (split_on_clean "_" (fst (splitext name))) as Hclean.
  pose proof (split_on_single "_" (fst (splitext name))) as Hsingle.
  destruct (endswith name ".txt");
    [| split; [discriminate | split; [auto | reflexivity]]].
  destruct (split_on "_" (fst (splitext name))) as [| part parts];
    [congruence |].
  destruct parts as [| q parts]; cbn [length Nat.leb] in *.
  - split; [discriminate |]. split; [intros _; right; apply Hsingle; lia |].
    reflexivity.
  - split.
    + intros pn an [= <- <-]. split; [reflexivity |].
      inversion Hclean; subst. split; [assumption |].
      rewrite <- Hjoin. apply concat_cons. discriminate.
    + split; [discriminate |]. intros [H | H]; [discriminate |].
      apply Hsingle in H. lia.
Qed.

(** * The upload of submissions *)

Lemma ids_below_next (rows : list submission) :
  Forall (fun r => s_id r < next_id rows) rows.
Proof.
  unfold next_id. induction rows as [| r rows IH]; [constructor |].
  cbn [map fold_right]. constructor; [lia |].
  eapply Forall_impl; [| exact IH]. cbn beta. intros x Hx. lia.
Qed.

Lemma insert_keeps_ids_distinct cid pid aid prompt (rows : list submission) :
  NoDup (map s_id rows) ->
  NoDup (map s_id (insert_submission cid pid aid prompt rows)).
Proof.
  intros H. unfold insert_submission. rewrite map_app. cbn [map s_id].
  apply NoDup_app; [exact H | repeat constructor; intros [] |].
  intros x Hx [<- | []].
  apply in_map_iff in Hx as (r & E & Hr).
  pose proof (ids_below_next rows) as Hall. rewrite Forall_forall in Hall.
  specialize (Hall r Hr). lia.
Qed.

Lemma get_by_name_In {A : Type} (name : A -> string) (l : list A) key x :
  get_by_name name l key = Some x -> In x l /\ name x = key.
Proof.
  unfold get_by_name. intros H. apply find_some in H as [Hin E].
  apply in_rev in Hin. apply String.eqb_eq in E. auto.
Qed.

Section UploadLoop.
Variable competition_id : Z.
Variable all_participants : list participant.
Variable d : database.

Local Notation "'entrants'" :=
  (filter (fun p => pt_competition_id p =? competition_id) all_participants).
Local Notation "'tasks'" :=
  (filter (fun a => a_competition_id a =? competition_id) (assignments d)).

Lemma upload_one_adds member state state' :
  upload_one competition_id entrants tasks member state = Return state' ->
  exists new,
    table state' = (table state ++ new)%list
    /\ Forall (fresh_row competition_id all_participants d) new
    /\ submissions_added state'
       = submissions_added state + Z.of_nat (length new)
    /\ (NoDup (map s_id (table state)) -> NoDup (map s_id (table state'))).
Proof.
  unfold upload_one. destruct member as [file_name content].
  assert (Hsame : forall st, st = state' -> state = st ->
            exists new,
              table state' = (table state ++ new)%list
              /\ Forall (fresh_row competition_id all_participants d) new
              /\ submissions_added state'
                 = submissions_added state + Z.of_nat (length new)
              /\ (NoDup (map s_id (table state))
                  -> NoDup (map s_id (table state')))).
  { intros st <- <-. exists []. rewrite app_nil_r.
    repeat split; [constructor | simpl; lia | auto]. }
  destruct (parse_file_name file_name) as [[pn an] |];
    [| intros [= E]; apply (Hsame state); auto].
  destruct (get_by_name pt_name entrants pn) as [p |] eqn:Ep;
    destruct (get_by_name a_name tasks an) as [a |] eqn:Ea;
    try (intros [= <-]; exists []; cbn [table submissions_added];
         rewrite app_nil_r; repeat split; [constructor | simpl; lia | auto]).
  destruct content as [cause | prompt_text]; [discriminate |].
  intros [= <-]. cbn [table submissions_added]. unfold insert_submission.
  eexists. split; [reflexivity |]. split; [| split].
  - constructor; [| constructor]. unfold fresh_row. cbn.
    apply get_by_name_In in Ep as [Hp _]. apply get_by_name_In in Ea as [Ha _].
    apply filter_In in Hp as [Hp Ecp]. apply filter_In in Ha as [Ha Eca].
    apply Z.eqb_eq in Ecp, Eca.
    repeat split; try reflexivity; [exists p | exists a]; auto.
  - simpl. lia.
  - apply insert_keeps_ids_distinct.
Qed.

Lemma upload_each_adds archive :
  forall state state',
    upload_each competition_id entrants tasks archive state = Return state' ->
    exists new,
      table state' = (table state ++ new)%list
      /\ Forall (fresh_row competition_id all_participants d) new
      /\ submissions_added state'
         = submissions_added state + Z.of_nat (length new)
      /\ (NoDup (map s_id (table state)) -> NoDup (map s_id (table state'))).
Proof.
  induction archive as [| member rest IH]; intros state state' H.
  - simpl in H. injection H as <-. exists []. rewrite app_nil_r.
    repeat split; [constructor | simpl; lia | auto].
  - cbn [upload_each] in H.
    destruct (upload_one competition_id entrants tasks member state)
      as [e | mid] eqn:E; cbn [bind] in H; [discriminate |].
    destruct (upload_one_adds _ _ _ E) as (new1 & T1 & F1 & N1 & K1).
    destruct (IH _ _ H) as (new2 & T2 & F2 & N2 & K2).
    exists (new1 ++ new2)%list.
    split; [rewrite T2, T1, app_assoc; reflexivity |].
    split; [apply Forall_app; auto |].
    split; [rewrite length_app, Nat2Z.inj_add; lia |].
    intros Hk. apply K2, K1, Hk.
Qed.

End UploadLoop.

Lemma upload_submissions_adds :
  forall all_participants archive competition_id d response d',
    upload_submissions all_participants archive competition_id d
    = (Return response, d') ->
    competitions d' = competitions d
    /\ assignments d' = assignments d
    /\ exists new,
         submissions d' = (submissions d ++ new)%list
         /\ Forall (fresh_row competition_id all_participants d) new
         /\ r_message response
            = digits (Z.of_nat (length new))
              ++ " submissions uploaded successfully"
         /\ (primary_keys d -> primary_keys d').
Proof.
  intros all_participants archive competition_id d response d' H.
  unfold upload_submissions in H.
  destruct (select_competition competition_id d); [| discriminate].
  destruct (upload_each _ _ _ _ _) as [e | state] eqn:E; [discriminate |].
  injection H as <- <-. cbn [competitions assignments submissions r_message].
  destruct (upload_each_adds _ _ _ _ _ _ E) as (new & T & F & N & K).
  cbn [table submissions_added] in *.
  split; [reflexivity |]. split; [reflexivity |].
  exists new. split; [exact T |]. split; [exact F |].
  split; [rewrite N; reflexivity |].
  intros [K1 K2]. split; [apply K; exact K1 | exact K2].
Qed.

(** X21. When [upload_submissions] answers, it has left the competitions,
    the assignments and the submissions it found as they were and has added
    one row for each file it counts in its message: a [pending] row without
    score, feedback or grading detail, for a participant and an assignment
    of the competition; ids that were distinct stay distinct. *)
Theorem upload_stores_pending_rows :
  forall all_participants archive competition_id d response d',
    upload_submissions all_participants archive competition_id d
    = (Return response, d') ->
    competitions d' = competitions d
    /\ assignments d' = assignments d
    /\ exists new,
         submissions d' = (submissions d ++ new)%list
         /\ Forall (fresh_row competition_id all_participants d) new
         /\ r_message response
            = digits (Z.of_nat (length new))
              ++ " submissions uploaded successfully"
         /\ (primary_keys d -> primary_keys d').
Proof. exact upload_submissions_adds. Qed.

Lemma upload_stores_pending_rows_witness :
  competitions (snd (upload_submissions roster zip_members 1 two_pending))
  = competitions two_pending
  /\ assignments (snd (upload_submissions roster zip_members 1 two_pending))
     = assignments two_pending
  /\ exists new,
       submissions (snd (upload_submissions roster zip_members 1 two_pending))
       = (submissions two_pending ++ new)%list
       /\ Forall (fresh_row 1 roster two_pending) new
       /\ "1 submissions uploaded successfully"
          = digits (Z.of_nat (length new))
            ++ " submissions uploaded successfully"
       /\ (primary_keys two_pending ->
           primary_keys
             (snd (upload_submissions roster zip_members 1 two_pending))).
Proof.
  refine (upload_stores_pending_rows roster zip_members 1 two_pending
            (mkAnswer "1 submissions uploaded successfully"
               (Some ["lee_other (participant: True, assignment: False)"]))
            _ _).
  reflexivity.
Defined.

(** X22. The rows [upload_submissions] stores are taken by the next pass
    over the competition: each of them is in its snapshot, the number of
    pending submissions that [start_grading] counts grows by the number of
    stored rows, and after the pass each of them is [completed] or
    [error]. *)
Theorem uploaded_rows_are_graded_by_next_pass :
  forall all_participants archive competition_id d response d' client w,
    upload_submissions all_participants archive competition_id d
    = (Return response, d') ->
    db w = d' ->
    exists new,
      submissions d' = (submissions d ++ new)%list
      /\ count_pending competition_id d'
         = count_pending competition_id d + Z.of_nat (length new)
      /\ forall r,
           In r new ->
           In (s_id r)
             (map (fun p => s_id (p_submission p))
                (select_pending competition_id d'))
           /\ forall st,
                observed
                  (db (snd (grade_all_submissions_background
                              client competition_id w)))
                  (s_id r) st ->
                terminal st.
Proof.
  intros all_participants archive competition_id d response d' client w H Hw.
  destruct (upload_submissions_adds _ _ _ _ _ _ H)
    as (_ & Ha & new & Hs & Hnew & _).
  exists new. split; [exact Hs |]. split.
  - unfold count_pending. rewrite Hs, filter_app, length_app, Nat2Z.inj_add.
    f_equal. f_equal. f_equal.
    clear - Hnew. induction Hnew as [| r new (Hc & Hst & _) _ IH];
      [reflexivity |].
    cbn [filter]. rewrite Hc, Z.eqb_refl, Hst. cbn [andb status_eqb length].
    rewrite IH. reflexivity.
  - intros r Hr. rewrite Forall_forall in Hnew.
    destruct (Hnew r Hr) as (Hc & Hst & _ & _ & _ & _ & a & Hain & _ & Ea).
    assert (Hsnap : In (s_id r)
                      (map (fun p => s_id (p_submission p))
                         (select_pending competition_id d'))).
    { apply in_map_iff. exists (mkPending r (a_prompt a)).
      split; [reflexivity |].
      apply select_pending_intro; auto.
      - rewrite Hs. apply in_or_app. right. exact Hr.
      - rewrite Ha. exact Hain. }
    split; [exact Hsnap |].
    intros st (r' & Hr' & Hid & <-).
    rewrite background_pass in Hr'. cbn [snd db] in Hr'.
    rewrite pass_submissions, Hw in Hr'.
    apply in_map_iff in Hr' as (r0 & <- & _).
    apply row_pass_terminal. rewrite row_pass_id in Hid. rewrite Hid.
    exact Hsnap.
Qed.

Lemma uploaded_rows_are_graded_by_next_pass_witness :
  exists new,
    submissions (snd (upload_submissions roster zip_members 1 two_pending))
    = (submissions two_pending ++ new)%list
    /\ count_pending 1 (snd (upload_submissions roster zip_members 1 two_pending))
       = count_pending 1 two_pending + Z.of_nat (length new)
    /\ forall r,
         In r new ->
         In (s_id r)
           (map (fun p => s_id (p_submission p))
              (select_pending 1
                 (snd (upload_submissions roster zip_members 1 two_pending))))
         /\ forall st,
              observed
                (db (snd (grade_all_submissions_background first_only 1
                            (mkWorld
                               (snd (upload_submissions roster zip_members 1
                                       two_pending)) []))))
                (s_id r) st ->
              terminal st.
Proof.
  refine (uploaded_rows_are_graded_by_next_pass roster zip_members 1 two_pending
            (mkAnswer "1 submissions uploaded successfully"
               (Some ["lee_other (participant: True, assignment: False)"]))
            _ first_only (mkWorld _ []) _ eq_refl).
  reflexivity.
Defined.

Lemma find_last_match {A : Type} (test : A -> bool) (before after : list A) (x : A) :
  test x = true ->
  Forall (fun y => test y = false) after ->
  find test (rev (before ++ x :: after)) = Some x.
Proof.
  intros Hx Hafter. rewrite rev_app_distr. cbn [rev]. rewrite <- app_assoc.
  cbn [app].
  assert (Hskip : forall l tail,
            Forall (fun y => test y = false) l ->
            find test (rev l ++ tail) = find test tail).
  { induction l as [| y l IH]; intros tail Hl; [reflexivity |].
    inversion Hl as [| ? ? Hy Hl']; subst. cbn [rev].
    rewrite <- app_assoc, (IH _ Hl'). cbn [app find]. rewrite Hy. reflexivity. }
  rewrite (Hskip after _ Hafter). cbn [find]. rewrite Hx. reflexivity.
Qed.

(** X26. Names are not keys: when several participants of the competition
    have the name a file carries, the submission is stored for the one that
    comes last in the table. *)
Theorem file_goes_to_last_participant_of_that_name :
  forall competition_id before p after assignments_ a
         file_name participant_name assignment_name prompt_text state,
    parse_file_name file_name = Some (participant_name, assignment_name) ->
    pt_name p = participant_name ->
    Forall (fun q => pt_name q <> participant_name) after ->
    get_by_name a_name assignments_ assignment_name = Some a ->
    upload_one competition_id (before ++ p :: after) assignments_
      (file_name, Gives prompt_text) state
    = Return (mkState
                (insert_submission competition_id (pt_id p) (a_id a)
                   prompt_text (table state))
                (submissions_added state + 1)
                (skipped state)).
Proof.
  intros competition_id before p after assignments_ a file_name
    participant_name assignment_name prompt_text state Hparse Hp Hafter Ha.
  unfold upload_one. rewrite Hparse, Ha.
  unfold get_by_name at 1.
  rewrite (find_last_match _ before after p).
  - reflexivity.
  - apply String.eqb_eq. exact Hp.
  - eapply Forall_impl; [| exact Hafter]. cbn beta. intros q Hq.
    apply String.eqb_neq. exact Hq.
Qed.

Lemma file_goes_to_last_participant_of_that_name_witness :
  upload_one 1
    ([mkParticipant 10 1 "kim" None None]
     ++ mkParticipant 13 1 "kim" None None
        :: [mkParticipant 11 1 "lee" None None])
    [mkAssignment 7 1 "summary" task]
    ("kim_summary.txt", Gives "P") (mkState [] 0 [])
  = Return (mkState (insert_submission 1 13 7 "P" []) (0 + 1) []).
Proof.
  refine (file_goes_to_last_participant_of_that_name 1
            [mkParticipant 10 1 "kim" None None]
            (mkParticipant 13 1 "kim" None None)
            [mkParticipant 11 1 "lee" None None]
            [mkAssignment 7 1 "summary" task] (mkAssignment 7 1 "summary" task)
            "kim_summary.txt" "kim" "summary" "P" (mkState [] 0 [])
            _ _ _ _).
  - reflexivity.
  - reflexivity.
  - repeat constructor. discriminate.
  - reflexivity.
Defined.

(** * Rounded averages *)





(** * Isolation *)

(** X25. Under the primary keys, what a pass stores for a submission
    depends only on what the service does while that submission is graded:
    two passes from the same tables, with services that behave alike for the
    submission at position k of the snapshot, leave the same row for it,
    whatever happens to the other submissions. *)
Theorem grading_of_a_submission_is_isolated :
  forall client client' competition_id w (k : nat) p,
    primary_keys (db w) ->
    nth_error (select_pending competition_id (db w)) k = Some p ->
    grade_submission (client (S k)) (assignment_prompt p)
      (s_prompt_text (p_submission p)) default_num_runs
    = grade_submission (client' (S k)) (assignment_prompt p)
        (s_prompt_text (p_submission p)) default_num_runs ->
    forall r r',
      In r (submissions
              (db (snd (grade_all_submissions_background
                          client competition_id w)))) ->
      In r' (submissions
               (db (snd (grade_all_submissions_background
                           client' competition_id w)))) ->
      s_id r = s_id (p_submission p) ->
      s_id r' = s_id (p_submission p) ->
      r = r'.
Proof.
  intros client client' competition_id w k p Hpk Hk Hsame r r' Hr Hr' Hid Hid'.
  rewrite background_pass in Hr, Hr'. cbn [snd db] in Hr, Hr'.
  rewrite pass_submissions in Hr, Hr'.
  apply in_map_iff in Hr as (r0 & <- & Hr0).
  apply in_map_iff in Hr' as (r1 & <- & Hr1).
  rewrite row_pass_id in Hid, Hid'.
  assert (Hp : In p (select_pending competition_id (db w)))
    by (eapply nth_error_In; exact Hk).
  apply select_pending_In in Hp as (Hpin & _).
  assert (r0 = p_submission p) as ->
    by (apply (unique_row (submissions (db w))); try assumption;
        exact (proj1 Hpk)).
  assert (r1 = p_submission p) as ->
    by (apply (unique_row (submissions (db w))); try assumption;
        exact (proj1 Hpk)).
  pose proof (select_pending_NoDup competition_id (db w) Hpk) as Hnd.
  rewrite (row_pass_at client _ 1 k p (p_submission p) Hnd Hk eq_refl).
  rewrite (row_pass_at client' _ 1 k p (p_submission p) Hnd Hk eq_refl).
  unfold graded_by. change (1 + k)%nat with (S k). rewrite Hsame. reflexivity.
Qed.

Lemma grading_of_a_submission_is_isolated_witness :
  primary_keys two_pending
  /\ forall r r',
       In r (submissions
               (db (snd (grade_all_submissions_background first_only 1
                           (mkWorld two_pending []))))) ->
       In r' (submissions
                (db (snd (grade_all_submissions_background
                            (fun _ => steady [80; 85; 75]) 1
                            (mkWorld two_pending []))))) ->
       s_id r = 1 -> s_id r' = 1 -> r = r'.
Proof.
  assert (H : primary_keys two_pending) by keys_by_inspection.
  split; [exact H |].
  refine (grading_of_a_submission_is_isolated first_only
            (fun _ => steady [80; 85; 75]) 1 (mkWorld two_pending []) 0
            (mkPending (fresh 1 7) task) H eq_refl _).
  reflexivity.
Defined.
